(** * Patient record store and average-age aggregation

  A shallow embedding of [hms/app/model.py], [hms/app/db_services.py] and
  the average-age handler of [hms/app/crud_operations.py], with the
  properties of the record store (create, read, update, delete) and of the
  two average-age aggregations.

  Conventions.
  - Python [int] is [Z]; Python [float] is an IEEE 754 binary64 value, a
    [spec_float] of the Standard Library ([prec = 53], [emax = 1024]).
  - A Python call that may raise returns an [outcome]; [try]/[except] is a
    match on it that handles exactly the listed exception classes.
  - The SQLite table is an explicit [Store] passed through every call; the
    storage layer raising during a call is an explicit [fault] argument.
  - A Python [str] is a [string]: the sequence of its code points, each
    below 256.  *)

From Stdlib Require Import ZArith List String Ascii Bool Lia SpecFloat.
From Stdlib Require Import Permutation DecimalString.
Import ListNotations.
Open Scope Z_scope.

(** ** The Python builtins the program relies on *)

Module python.

(** Exception classes that occur in the program.  All of them derive from
    [Exception]. *)
Inductive exn : Type :=
| ValueError
| TypeError
| OverflowError
| ZeroDivisionError
| sqlite3_Error.

Definition exn_eqb (a b : exn) : bool :=
  match a, b with
  | ValueError, ValueError
  | TypeError, TypeError
  | OverflowError, OverflowError
  | ZeroDivisionError, ZeroDivisionError
  | sqlite3_Error, sqlite3_Error => true
  | _, _ => false
  end.

Inductive outcome (A : Type) : Type :=
| Returns (a : A)
| Raises (e : exn).
Arguments Returns {A} a.
Arguments Raises {A} e.

Definition bind {A B} (m : outcome A) (k : A -> outcome B) : outcome B :=
  match m with
  | Returns a => k a
  | Raises e => Raises e
  end.

(** [except (c1, c2, ...)]: does the clause handle [e]? *)
Definition handles (classes : list exn) (e : exn) : bool :=
  existsb (exn_eqb e) classes.

(** Values a record field holds in this program: [None] or a [str]. *)
Inductive pyval : Type :=
| PyNone
| PyStr (s : string).

(** *** [int(x)] for a [str] or [None]

    [int(None)] raises [TypeError].  For a [str], CPython first rewrites the
    text to ASCII ([transform_decimal_and_space]), then skips leading white
    space, reads an optional sign, then decimal digits in which single
    underscores may separate digits (none leading, none trailing, no two in
    a row), then skips trailing white space; anything else, an empty digit
    run, or more than [max_str_digits] digits raises [ValueError]. *)

Definition code_point (c : ascii) : Z := Z.of_N (N_of_ascii c).

(** [Py_UNICODE_ISSPACE] on the code points below 256: the ASCII white
    space, the four separators U+001C to U+001F, U+0085 and U+00A0. *)
Definition Py_UNICODE_ISSPACE (c : ascii) : bool :=
  let n := code_point c in
  ((9 <=? n) && (n <=? 13)) || ((28 <=? n) && (n <=? 32))
  || (n =? 133) || (n =? 160).

(** [Py_UNICODE_TODECIMAL] on the code points below 256: the only decimal
    digits there are the ASCII ones. *)
Definition Py_UNICODE_TODECIMAL (c : ascii) : option Z :=
  let n := code_point c in
  if (48 <=? n) && (n <=? 57) then Some (n - 48) else None.

Definition PyUnicode_IS_ASCII (s : list ascii) : bool :=
  forallb (fun c => code_point c <? 128) s.

(** The loop of [_PyUnicode_TransformDecimalAndSpaceToASCII]: a code point
    below 127 is kept, a white-space one becomes a space, a decimal digit
    becomes its ASCII digit, and at any other code point the output ends
    with a question mark. *)
Fixpoint transform_loop (s : list ascii) : list ascii :=
  match s with
  | [] => []
  | c :: s' =>
      if code_point c <? 127 then c :: transform_loop s'
      else if Py_UNICODE_ISSPACE c then " "%char :: transform_loop s'
      else
        match Py_UNICODE_TODECIMAL c with
        | Some d => ascii_of_N (Z.to_N (48 + d)) :: transform_loop s'
        | None => ["?"%char]
        end
  end.

(** An ASCII text is returned as it is. *)
Definition transform_decimal_and_space (s : list ascii) : list ascii :=
  if PyUnicode_IS_ASCII s then s else transform_loop s.

(** [Py_ISSPACE]: the white space of the ASCII text that is parsed. *)
Definition Py_ISSPACE (c : ascii) : bool :=
  let n := Z.of_N (N_of_ascii c) in
  ((9 <=? n) && (n <=? 13)) || (n =? 32).

Definition digit_value (c : ascii) : option Z :=
  let n := Z.of_N (N_of_ascii c) in
  if (48 <=? n) && (n <=? 57) then Some (n - 48) else None.

Definition is_underscore (c : ascii) : bool := Ascii.eqb c "_"%char.

Fixpoint skip_space (s : list ascii) : list ascii :=
  match s with
  | c :: s' => if Py_ISSPACE c then skip_space s' else s
  | [] => []
  end.

(** The digit scan: [prev_us] says that the previous character was an
    underscore.  Returns the value, the number of digits and the rest of
    the input, or [None] on a misplaced underscore. *)
Fixpoint scan_digits (s : list ascii) (prev_us : bool) (acc digits : Z)
  : option (Z * Z * list ascii) :=
  match s with
  | [] => if prev_us then None else Some (acc, digits, [])
  | c :: s' =>
      if is_underscore c then
        if prev_us then None else scan_digits s' true acc digits
      else
        match digit_value c with
        | Some d => scan_digits s' false (10 * acc + d) (digits + 1)
        | None => if prev_us then None else Some (acc, digits, s)
        end
  end.

(** CPython's default limit on the digits of a decimal literal. *)
Definition max_str_digits : Z := 4300.

Definition long_from_string (s : list ascii) : option Z :=
  let s := skip_space s in
  let '(negative, s) :=
    match s with
    | c :: s' =>
        if Ascii.eqb c "+"%char then (false, s')
        else if Ascii.eqb c "-"%char then (true, s')
        else (false, s)
    | [] => (false, s)
    end in
  match s with
  | [] => None
  | c :: _ =>
      if is_underscore c then None
      else
        match scan_digits s false 0 0 with
        | None => None
        | Some (v, digits, rest) =>
            if digits =? 0 then None
            else if max_str_digits <? digits then None
            else
              match skip_space rest with
              | [] => Some (if negative then - v else v)
              | _ :: _ => None
              end
        end
  end.

Definition int (x : pyval) : outcome Z :=
  match x with
  | PyNone => Raises TypeError
  | PyStr s =>
      match long_from_string
              (transform_decimal_and_space (list_ascii_of_string s)) with
      | Some v => Returns v
      | None => Raises ValueError
      end
  end.

(** *** [range(start, stop, step)] and slices *)

Definition range (start stop step : Z) : outcome (list Z) :=
  if step =? 0 then Raises ValueError
  else
    let n :=
      if 0 <? step then
        if start <? stop then (stop - start - 1) / step + 1 else 0
      else
        if stop <? start then (start - stop - 1) / (- step) + 1 else 0 in
    Returns (map (fun k => start + Z.of_nat k * step) (seq 0 (Z.to_nat n))).

(** A slice bound is clamped to [0 .. len], a negative one counts from the
    end. *)
Definition slice_index (len i : Z) : Z :=
  if i <? 0 then Z.max (i + len) 0 else Z.min i len.

Definition slice {A} (l : list A) (i j : Z) : list A :=
  let len := Z.of_nat (List.length l) in
  let lo := slice_index len i in
  let hi := slice_index len j in
  firstn (Z.to_nat (hi - lo)) (skipn (Z.to_nat lo) l).

(** *** [a / b] on integers and [round(x, ndigits)] on a float

    True division of two integers is the exact quotient rounded once, to
    nearest-even, to binary64; it raises [OverflowError] when that is out of
    range.  The operands enter [SFdiv] as exact integers (exponent 0). *)

Definition float : Type := spec_float.

Definition exact_float (a : Z) : float :=
  match a with
  | Z0 => S754_zero false
  | Zpos p => S754_finite false p 0
  | Zneg p => S754_finite true p 0
  end.

Definition int_true_divide (a b : Z) : outcome float :=
  if b =? 0 then Raises ZeroDivisionError
  else
    match SFdiv 53 1024 (exact_float a) (exact_float b) with
    | S754_infinity _ | S754_nan => Raises OverflowError
    | q => Returns q
    end.

(** Nearest integer to [num / den] for [0 < den], ties to even. *)
Definition round_half_even (num den : Z) : Z :=
  let q := num / den in
  match 2 * (num mod den) ?= den with
  | Lt => q
  | Gt => q + 1
  | Eq => if Z.even q then q else q + 1
  end.

(** [round(x, ndigits)] converts the exact value of [x] to the nearest
    decimal with [ndigits] places and reads that decimal back as a float.
    Here [0 <= ndigits], as in the program's [round(average_age, 2)]. *)
Definition round (x : float) (ndigits : Z) : outcome float :=
  match x with
  | S754_finite s m e =>
      let scale := 10 ^ ndigits in
      let num := Zpos m * scale * 2 ^ (Z.max e 0) in
      let den := 2 ^ (Z.max (- e) 0) in
      let d := round_half_even num den in
      if d =? 0 then Returns (S754_zero s)
      else int_true_divide (if s then - d else d) scale
  | _ => Returns x
  end.

End python.

Notation "x <- m ;; k" := (python.bind m (fun x => k))
  (at level 61, m at next level, right associativity).
Notation "' p <- m ;; k" := (python.bind m (fun p => k))
  (at level 61, p pattern, m at next level, right associativity).

(** ** [model.py] *)

Module model.
Import python.

(** [class Patient]: [id] is [None] or an [int]; the other three fields
    hold whatever the caller passed, a [str] or [None].  Every construction
    in the program passes [name], [age] and [disease]. *)
Record Patient : Type := mkPatient {
  id : option Z;
  name : pyval;
  age : pyval;
  disease : pyval
}.

End model.

(** ** The [patients] table

  [CREATE TABLE patients(id INTEGER PRIMARY KEY AUTOINCREMENT,
  name TEXT NOT NULL, age TEXT NOT NULL, disease TEXT NOT NULL)].
  The rows are kept in rowid order, the order [SELECT *] scans them in;
  [sequence] is the largest rowid the table ever held, which
  [AUTOINCREMENT] records so that a rowid is never used twice. *)

Module sqlite3.
Import python.

Record Row : Type := mkRow {
  row_id : Z;
  row_name : string;
  row_age : string;
  row_disease : string
}.

Record Store : Type := mkStore {
  rows : list Row;
  sequence : Z
}.

Definition empty : Store := {| rows := []; sequence := 0 |}.

Definition max_rowid : Z := 9223372036854775807.

(** What the storage layer does during one call: [None], it works;
    [Some e], [connect], [execute] or [commit] raises [e] and the
    transaction is rolled back. *)
Definition fault : Type := option exn.

Definition connect (io : fault) : outcome unit :=
  match io with
  | None => Returns tt
  | Some e => Raises e
  end.

(** Binding a parameter to a [TEXT NOT NULL] column. *)
Definition not_null (v : pyval) : outcome string :=
  match v with
  | PyStr s => Returns s
  | PyNone => Raises sqlite3_Error
  end.

Definition largest_rowid (st : Store) : Z :=
  fold_right Z.max (sequence st) (map row_id (rows st)).

(** [INSERT INTO patients(name, age, disease) VALUES(?, ?, ?)];
    returns [lastrowid]. *)
Definition insert (name age disease : pyval) (st : Store)
  : outcome (Z * Store) :=
  n <- not_null name ;;
  a <- not_null age ;;
  d <- not_null disease ;;
  let top := largest_rowid st in
  if max_rowid <=? top then Raises sqlite3_Error
  else
    let rowid := top + 1 in
    Returns (rowid, {| rows := rows st ++ [mkRow rowid n a d];
                       sequence := rowid |}).

Definition id_is (i : Z) (r : Row) : bool := row_id r =? i.

(** [SELECT * FROM patients WHERE id=?] followed by [fetchone()]. *)
Definition select_by_id (i : Z) (st : Store) : option Row :=
  find (id_is i) (rows st).

Definition rowcount (i : Z) (st : Store) : Z :=
  Z.of_nat (List.length (filter (id_is i) (rows st))).

(** [UPDATE patients SET name=?, age=?, disease=? WHERE id=?];
    returns [rowcount].  [id = NULL] selects no row; the [NOT NULL]
    constraints are checked on the rows that are written. *)
Definition update (name age disease : pyval) (id : option Z) (st : Store)
  : outcome (Z * Store) :=
  match id with
  | None => Returns (0, st)
  | Some i =>
      let n := rowcount i st in
      if n =? 0 then Returns (0, st)
      else
        nm <- not_null name ;;
        a <- not_null age ;;
        d <- not_null disease ;;
        Returns (n, {| rows := map (fun r => if id_is i r
                                             then mkRow (row_id r) nm a d
                                             else r) (rows st);
                       sequence := sequence st |})
  end.

(** [DELETE FROM patients WHERE id=?]; returns [rowcount]. *)
Definition delete (i : Z) (st : Store) : Z * Store :=
  (rowcount i st,
   {| rows := filter (fun r => negb (id_is i r)) (rows st);
      sequence := sequence st |}).

End sqlite3.

(** ** [db_services.py] *)

Module db_services.
Import python model sqlite3.

(** [Patient( *row )] *)
Definition Patient_of_row (row : Row) : Patient :=
  mkPatient (Some (row_id row)) (PyStr (row_name row))
            (PyStr (row_age row)) (PyStr (row_disease row)).

(** Every function below wraps its body in [try: ... except Exception],
    which handles every class of [exn]. *)

Definition create_patient (io : fault) (patient : Patient) (st : Store)
  : option Z * Store :=
  match (_ <- connect io ;;
         insert (name patient) (age patient) (disease patient) st) with
  | Returns (patient_id, st') => (Some patient_id, st')
  | Raises e => (None, st)
  end.

Definition read_all_patients (io : fault) (st : Store) : list Patient :=
  match (_ <- connect io ;; Returns (rows st)) with
  | Returns rows => map Patient_of_row rows
  | Raises e => []
  end.

Definition read_patient_by_id (io : fault) (patient_id : Z) (st : Store)
  : option Patient :=
  match (_ <- connect io ;; Returns (select_by_id patient_id st)) with
  | Returns (Some row) => Some (Patient_of_row row)
  | Returns None => None
  | Raises e => None
  end.

Definition update_patient (io : fault) (patient : Patient) (st : Store)
  : Z * Store :=
  match (_ <- connect io ;;
         update (name patient) (age patient) (disease patient)
                (id patient) st) with
  | Returns (rowcount, st') => (rowcount, st')
  | Raises e => (0, st)
  end.

Definition delete_patient (io : fault) (patient_id : Z) (st : Store)
  : Z * Store :=
  match (_ <- connect io ;; Returns (delete patient_id st)) with
  | Returns (rowcount, st') => (rowcount, st')
  | Raises e => (0, st)
  end.

(** The loop of [calculate_batch_average_age]: [int(patient.age)] inside
    [try: ... except (ValueError, TypeError)]; any other exception
    leaves the loop. *)
Fixpoint batch_loop (patients : list Patient) (total_age valid_count : Z)
  : outcome (Z * Z) :=
  match patients with
  | [] => Returns (total_age, valid_count)
  | patient :: rest =>
      match int (age patient) with
      | Returns age => batch_loop rest (total_age + age) (valid_count + 1)
      | Raises e =>
          if handles [ValueError; TypeError] e
          then batch_loop rest total_age valid_count
          else Raises e
      end
  end.

Definition calculate_batch_average_age (patients : list Patient)
  : outcome (Z * Z) :=
  batch_loop patients 0 0.

(** [for f in futures: ... f.result()]: the results are read in the order
    the batches were submitted, and [result()] re-raises what the worker
    raised. *)
Fixpoint join (futures : list (outcome (Z * Z))) (total_age total_count : Z)
  : outcome (Z * Z) :=
  match futures with
  | [] => Returns (total_age, total_count)
  | f :: rest =>
      match f with
      | Returns (batch_total, batch_count) =>
          join rest (total_age + batch_total) (total_count + batch_count)
      | Raises e => Raises e
      end
  end.

(** Each worker computes a value from a batch of its own, so the thread
    pool is the list of the workers' outcomes, in submission order. *)
Definition calculate_average_age (io : fault) (batch_size : Z) (st : Store)
  : outcome (option float) :=
  let patients := read_all_patients io st in
  match patients with
  | [] => Returns None
  | _ :: _ =>
      starts <- range 0 (Z.of_nat (List.length patients)) batch_size ;;
      let futures :=
        map (fun i => calculate_batch_average_age
                        (slice patients i (i + batch_size))) starts in
      '(total_age, total_count) <- join futures 0 0 ;;
      if total_count =? 0 then Returns None
      else
        average_age <- int_true_divide total_age total_count ;;
        Returns (Some average_age)
  end.

Fixpoint ages_loop (patients : list Patient) (total_age valid_count : Z)
  : outcome (Z * Z) :=
  match patients with
  | [] => Returns (total_age, valid_count)
  | patient :: rest =>
      match int (age patient) with
      | Returns age => ages_loop rest (total_age + age) (valid_count + 1)
      | Raises e =>
          if handles [ValueError; TypeError] e
          then ages_loop rest total_age valid_count
          else Raises e
      end
  end.

Definition calculate_average_ages (io : fault) (st : Store)
  : outcome (option float) :=
  let patients := read_all_patients io st in
  match patients with
  | [] => Returns None
  | _ :: _ =>
      '(total_age, valid_count) <- ages_loop patients 0 0 ;;
      if valid_count =? 0 then Returns None
      else
        average_age <- int_true_divide total_age valid_count ;;
        Returns (Some average_age)
  end.

End db_services.

(** ** [crud_operations.py]: the average-age handler *)

Module crud_operations.
Import python model sqlite3.

Inductive json : Type :=
| JInt (n : Z)
| JFloat (x : float)
| JStr (s : string)
| JStrOf (e : exn).  (* [str(e)] *)

(** [jsonify(dict), status] *)
Record response : Type := mkResponse {
  body : list (string * json);
  status : Z
}.

Definition is_valid_age (age : pyval) : outcome bool :=
  match int age with
  | Returns _ => Returns true
  | Raises e =>
      if handles [ValueError; TypeError] e then Returns false else Raises e
  end.

(** [sum(1 for patient in patients if is_valid_age(patient.age))] *)
Fixpoint count_valid (patients : list Patient) : outcome Z :=
  match patients with
  | [] => Returns 0
  | patient :: rest =>
      ok <- is_valid_age (age patient) ;;
      n <- count_valid rest ;;
      Returns (if ok then 1 + n else n)
  end.

(** The handler reads the table twice, once inside
    [calculate_average_ages] ([io1]) and once for the counts ([io2]). *)
Definition get_average_age (io1 io2 : fault) (st : Store) : response :=
  match (average_age <- db_services.calculate_average_ages io1 st ;;
         match average_age with
         | None =>
             Returns (mkResponse [("error", JStr "No valid ages found");
                                  ("patient_count", JInt 0)]%string 404)
         | Some average_age =>
             let patients := db_services.read_all_patients io2 st in
             valid_count <- count_valid patients ;;
             rounded <- round average_age 2 ;;
             Returns (mkResponse
                        [("average_age", JFloat rounded);
                         ("patient_count", JInt valid_count);
                         ("total_patients",
                           JInt (Z.of_nat (List.length patients)))]%string
                        200)
         end) with
  | Returns r => r
  | Raises e =>
      mkResponse [("error", JStrOf e); ("patient_count", JInt 0)]%string 500
  end.

End crud_operations.

(** ** What the properties speak of *)

Module spec.
Import python model sqlite3.

(** The age of a record parses as an integer. *)
Definition parses (p : Patient) : bool :=
  match int (age p) with
  | Returns _ => true
  | Raises _ => false
  end.

Definition parsed_age (p : Patient) : Z :=
  match int (age p) with
  | Returns a => a
  | Raises _ => 0
  end.

Definition sum_Z (l : list Z) : Z := fold_right Z.add 0 l.

(** Sum and count of the parseable ages of a record set. *)
Definition sum_of_ages (ps : list Patient) : Z :=
  sum_Z (map parsed_age (filter parses ps)).

Definition count_of_ages (ps : list Patient) : Z :=
  Z.of_nat (List.length (filter parses ps)).

(** The average of the parseable ages, as the single expression
    [sum / count]; [None] when there is none. *)
Definition average (ps : list Patient) : outcome (option float) :=
  if count_of_ages ps =? 0 then Returns None
  else
    x <- int_true_divide (sum_of_ages ps) (count_of_ages ps) ;;
    Returns (Some x).

Definition ids (st : Store) : list Z := map row_id (rows st).

(** The states of the table: rowids are positive, increase along the
    scan, and none exceeds [sequence]. *)
Fixpoint increasing (lo : Z) (l : list Z) : Prop :=
  match l with
  | [] => True
  | i :: l' => lo < i /\ increasing i l'
  end.

Definition wf (st : Store) : Prop :=
  increasing 0 (ids st)
  /\ Forall (fun i => i <= sequence st) (ids st)
  /\ 0 <= sequence st.

(** A caller's request to [create_patient], with what the storage layer
    does during it. *)
Definition call : Type := (fault * Patient)%type.

(** Run the calls in order; the result of each call and the final store. *)
Fixpoint create_all (calls : list call) (st : Store)
  : list (option Z) * Store :=
  match calls with
  | [] => ([], st)
  | (io, p) :: rest =>
      let '(r, st') := db_services.create_patient io p st in
      let '(rs, st'') := create_all rest st' in
      (r :: rs, st'')
  end.

(** The records the successful calls created: the caller's three fields
    under the id the call returned. *)
Fixpoint created (calls : list call) (results : list (option Z))
  : list Patient :=
  match calls, results with
  | (_, p) :: calls', Some i :: results' =>
      mkPatient (Some i) (name p) (age p) (disease p)
        :: created calls' results'
  | _ :: calls', None :: results' => created calls' results'
  | _, _ => []
  end.

(** The same request with another value in the caller's [id] field. *)
Definition with_id (i : option Z) (c : call) : call :=
  (fst c, mkPatient i (name (snd c)) (age (snd c)) (disease (snd c))).

(** The table without the rows whose age does not parse. *)
Definition without_unparsable (st : Store) : Store :=
  {| rows := filter (fun r => parses (db_services.Patient_of_row r))
                    (rows st);
     sequence := sequence st |}.

(** The records of [test_calculate_average_age], created in an empty
    table. *)
Definition test_patients : list Patient :=
  [ mkPatient None (PyStr "John Doe") (PyStr "45") (PyStr "Hypertension");
    mkPatient None (PyStr "Jane Smith") (PyStr "32") (PyStr "Diabetes");
    mkPatient None (PyStr "Alice Johnson") (PyStr "60") (PyStr "Arthritis");
    mkPatient None (PyStr "Invalid Age") (PyStr "invalid") (PyStr "Asthma")
  ]%string.

Definition test_store : Store :=
  snd (create_all (map (fun p => (None, p)) test_patients) empty).

(** A batch with every kind of age: a decimal literal, [None], a word,
    a signed literal with an underscore between blanks, a literal after a
    no-break space (U+00A0), and the empty text. *)
Definition mixed_ages : list Patient :=
  [ mkPatient (Some 1) (PyStr "A") (PyStr "45") (PyStr "x");
    mkPatient (Some 2) (PyStr "B") PyNone (PyStr "x");
    mkPatient None (PyStr "C") (PyStr "invalid") (PyStr "x");
    mkPatient (Some 4) (PyStr "D") (PyStr " -4_0 ") (PyStr "x");
    mkPatient (Some 5) (PyStr "E") (PyStr (String (ascii_of_N 160) "5"))
              (PyStr "x");
    mkPatient (Some 6) (PyStr "F") (PyStr "") (PyStr "x")
  ]%string.

(** Two newborns: every parseable age is zero. *)
Definition newborn_store : Store :=
  snd (create_all
         [(None, mkPatient None (PyStr "A") (PyStr "0") (PyStr "x"));
          (None, mkPatient None (PyStr "B") (PyStr "0") (PyStr "y"))]%string
         empty).

End spec.

(** ** Sequences of calls that write the table *)

Module session.
Import python model sqlite3.

(** A call of one of the three writing functions of [db_services], with
    what the storage layer does during it. *)
Inductive request : Type :=
| Create (io : fault) (patient : Patient)
| Update (io : fault) (patient : Patient)
| Delete (io : fault) (patient_id : Z).

Definition serve (r : request) (st : Store) : Store :=
  match r with
  | Create io p => snd (db_services.create_patient io p st)
  | Update io p => snd (db_services.update_patient io p st)
  | Delete io i => snd (db_services.delete_patient io i st)
  end.

Definition run (rs : list request) (st : Store) : Store :=
  fold_left (fun st r => serve r st) rs st.

(** [k] consecutive integers after [n]. *)
Fixpoint after (n : Z) (k : nat) : list Z :=
  match k with
  | O => []
  | S k' => (n + 1) :: after (n + 1) k'
  end.

(** The record a row with these columns reads as. *)
Definition stored (i : Z) (p : Patient) : Patient :=
  mkPatient (Some i) (name p) (age p) (disease p).

Definition is_text (v : pyval) : bool :=
  match v with
  | PyStr _ => true
  | PyNone => false
  end.

(** All three columns of the record hold text. *)
Definition all_text (p : Patient) : bool :=
  is_text (name p) && is_text (age p) && is_text (disease p).

(** Does a [create_patient] call succeed on a table whose id counter is
    [counter]?  It does when the storage layer works, the three fields
    hold text and an id is left. *)
Definition succeeds (c : spec.call) (counter : Z) : bool :=
  match fst c with
  | None => all_text (snd c) && (counter <? max_rowid)
  | Some _ => false
  end.

(** What each call of a sequence returns: a call that succeeds returns
    the integer after the counter and moves the counter there; the others
    return [None] and leave it. *)
Fixpoint assigned (calls : list spec.call) (counter : Z)
  : list (option Z) :=
  match calls with
  | [] => []
  | c :: rest =>
      if succeeds c counter
      then Some (counter + 1) :: assigned rest (counter + 1)
      else None :: assigned rest counter
  end.

End session.

(** ** [db_services.py]: the seed data *)

Module db_services_seed.
Import python model sqlite3.

Definition sample_patients : list Patient :=
  [ mkPatient None (PyStr "John Doe") (PyStr "45") (PyStr "Hypertension");
    mkPatient None (PyStr "Jane Smith") (PyStr "32") (PyStr "Diabetes");
    mkPatient None (PyStr "Alice Johnson") (PyStr "60") (PyStr "Arthritis");
    mkPatient None (PyStr "Bob Brown") (PyStr "28") (PyStr "Asthma");
    mkPatient None (PyStr "Charlie Davis") (PyStr "50")
              (PyStr "Heart Disease");
    mkPatient None (PyStr "David Evans") (PyStr "19") (PyStr "Allergies");
    mkPatient None (PyStr "Eve Foster") (PyStr "72") (PyStr "Osteoporosis");
    mkPatient None (PyStr "Frank Green") (PyStr "35") (PyStr "Migraine");
    mkPatient None (PyStr "Grace Harris") (PyStr "41")
              (PyStr "Thyroid Disorder");
    mkPatient None (PyStr "Henry Irving") (PyStr "55") (PyStr "Cancer");
    mkPatient None (PyStr "Ivy Jackson") (PyStr "29") (PyStr "Anemia");
    mkPatient None (PyStr "Jack King") (PyStr "63") (PyStr "COPD")
  ]%string.

(** [for patient in sample_patients: create_patient(...)]; the result of
    each call is dropped.  [io k] is what the storage layer does during
    the call for the [k]-th sample. *)
Fixpoint seed_loop (k : nat) (io : nat -> fault) (patients : list Patient)
  (st : Store) : Store :=
  match patients with
  | [] => st
  | patient :: rest =>
      seed_loop (S k) io rest
        (snd (db_services.create_patient (io k) patient st))
  end.

Definition seed_data (io : nat -> fault) (st : Store) : Store :=
  seed_loop 0 io sample_patients st.

End db_services_seed.

(** ** [crud_operations.py]: the patient routes

    A handler returns [jsonify(body), status]; an exception that leaves the
    handler is what Flask turns into its own 500 answer.  The request body
    is the parsed JSON object, with a [str] or [null] under each key.  The
    mail service is outside the program: [mail] is what a call of
    [send_gmail] does, [now_str] the formatted clock reading. *)

Module crud_routes.
Import python model sqlite3.

(** The Python values handed to [jsonify]: a dict of scalars, or a list of
    such dicts. *)
Inductive scalar : Type :=
| ONone
| OInt (n : Z)
| OStr (s : string).

Inductive pyobj : Type :=
| ODict (items : list (string * scalar))
| OList (items : list (list (string * scalar))).

Inductive crash : Type :=
| KeyError (key : string)
| AttributeError
| Escaped (e : exn).

Inductive answer : Type :=
| Reply (body : pyobj) (status : Z)
| Unhandled (c : crash).

(** [send_gmail(recipient, subject, body)], to the fixed recipient of the
    source. *)
Record email : Type := mkEmail {
  subject : string;
  body : string
}.

Definition of_id (i : option Z) : scalar :=
  match i with
  | Some n => OInt n
  | None => ONone
  end.

Definition of_val (v : pyval) : scalar :=
  match v with
  | PyStr s => OStr s
  | PyNone => ONone
  end.

(** [{'id': p.id, 'name': p.name, 'age': p.age, 'disease': p.disease}] *)
Definition patient_dict (p : Patient) : list (string * scalar) :=
  [("id", of_id (id p)); ("name", of_val (name p));
   ("age", of_val (age p)); ("disease", of_val (disease p))]%string.

(** [patient_data[key]] *)
Fixpoint getitem (patient_data : list (string * pyval)) (key : string)
  : option pyval :=
  match patient_data with
  | [] => None
  | (k, v) :: rest => if String.eqb k key then Some v else getitem rest key
  end.

(** [str(x)] inside an f-string. *)
Definition str_of_val (v : pyval) : string :=
  match v with
  | PyStr s => s
  | PyNone => "None"%string
  end.

Definition str_of_int (n : Z) : string :=
  DecimalString.NilZero.string_of_int (Z.to_int n).

Definition newline : string := String (ascii_of_nat 10) EmptyString.

(** [GET /patients] *)
Definition read_all_patients (io : fault) (st : Store) : answer :=
  let patient_objects := db_services.read_all_patients io st in
  Reply (OList (map patient_dict patient_objects)) 200.

(** [POST /patients] *)
Definition create_patient_endpoint
  (patient_data : list (string * pyval)) (io_create io_read : fault)
  (now_str : string) (mail : outcome unit) (st : Store)
  : answer * Store * list email :=
  match getitem patient_data "name"%string with
  | None => (Unhandled (KeyError "name"), st, [])
  | Some name =>
  match getitem patient_data "age"%string with
  | None => (Unhandled (KeyError "age"), st, [])
  | Some age =>
  match getitem patient_data "disease"%string with
  | None => (Unhandled (KeyError "disease"), st, [])
  | Some disease =>
      let '(patient_id, st') :=
        db_services.create_patient io_create
          (mkPatient None name age disease) st in
      match patient_id with
      | None =>
          (Reply (ODict [("error", OStr "Failed to create patient")]%string)
                 500, st', [])
      | Some patient_id =>
          match db_services.read_patient_by_id io_read patient_id st' with
          | None => (Unhandled AttributeError, st', [])
          | Some created_patient =>
              let saved_patient := ODict (patient_dict created_patient) in
              let message :=
                mkEmail
                  ("Patient Record Created at " ++ now_str)%string
                  ("A new patient record has been created:" ++ newline
                   ++ "Name: " ++ str_of_val name ++ newline
                   ++ "Age: " ++ str_of_val age ++ newline
                   ++ "Disease: " ++ str_of_val disease)%string in
              match mail with
              | Raises e => (Unhandled (Escaped e), st', [])
              | Returns _ => (Reply saved_patient 201, st', [message])
              end
          end
      end
  end end end.

(** [GET /patients/<int:patient_id>] *)
Definition read_patient_by_id_endpoint (io : fault) (patient_id : Z)
  (st : Store) : answer :=
  match db_services.read_patient_by_id io patient_id st with
  | None => Reply (ODict [("error", OStr "Patient not found")]%string) 404
  | Some patient_obj => Reply (ODict (patient_dict patient_obj)) 200
  end.

(** [PUT /patients/<int:patient_id>] *)
Definition update_patient_endpoint
  (patient_id : Z) (patient_data : list (string * pyval))
  (io_update io_read : fault) (st : Store) : answer * Store :=
  match getitem patient_data "name"%string with
  | None => (Unhandled (KeyError "name"), st)
  | Some name =>
  match getitem patient_data "age"%string with
  | None => (Unhandled (KeyError "age"), st)
  | Some age =>
  match getitem patient_data "disease"%string with
  | None => (Unhandled (KeyError "disease"), st)
  | Some disease =>
      let updated_patient := mkPatient (Some patient_id) name age disease in
      let '(rows_updated, st') :=
        db_services.update_patient io_update updated_patient st in
      if rows_updated =? 0 then
        (Reply (ODict [("error",
                         OStr "Patient not found or update failed")]%string)
               404, st')
      else
        match db_services.read_patient_by_id io_read patient_id st' with
        | None => (Unhandled AttributeError, st')
        | Some updated_obj =>
            (Reply (ODict (patient_dict updated_obj)) 200, st')
        end
  end end end.

(** [DELETE /patients/<int:patient_id>] *)
Definition delete_patient_endpoint (io : fault) (patient_id : Z) (st : Store)
  : answer * Store :=
  let '(rows_deleted, st') := db_services.delete_patient io patient_id st in
  if rows_deleted =? 0 then
    (Reply (ODict [("error", OStr "Patient not found")]%string) 404, st')
  else
    (Reply (ODict [("message",
                    OStr ("Patient with ID " ++ str_of_int patient_id
                          ++ " has been deleted."))]%string) 200, st').

End crud_routes.

(** ** Python dicts with text keys and values, in insertion order *)

Module pydict.

(** [d[key] = value] *)
Fixpoint setitem (d : list (string * string)) (key value : string)
  : list (string * string) :=
  match d with
  | [] => [(key, value)]
  | (k, v) :: rest =>
      if String.eqb k key then (k, value) :: rest
      else (k, v) :: setitem rest key value
  end.

(** [d.get(key)] *)
Fixpoint lookup (d : list (string * string)) (key : string) : option string :=
  match d with
  | [] => None
  | (k, v) :: rest => if String.eqb k key then Some v else lookup rest key
  end.

End pydict.

(** ** [db_services.py]: the interest rates

    The page is outside the program: [page] is what fetching and parsing it
    gives, an exception or the rows of [soup.select("table tbody tr")], each
    row being the stripped texts of its [td] cells. *)

Module db_services_rates.
Import python pydict.

Fixpoint rates_loop (table_rows : list (list string))
  (rates : list (string * string)) : list (string * string) :=
  match table_rows with
  | [] => rates
  | cols :: rest =>
      match cols with
      | c0 :: c1 :: _ => rates_loop rest (setitem rates c0 c1)
      | _ => rates_loop rest rates
      end
  end.

Definition fetch_interest_rates (page : outcome (list (list string)))
  : list (string * string) :=
  match page with
  | Returns table_rows => rates_loop (firstn 5 table_rows) []
  | Raises e => []
  end.

(** The second cell of the last of the rows that has two cells or more and
    [key] in the first, if there is one; [found] otherwise. *)
Definition last_value (key : string) (table_rows : list (list string))
  (found : option string) : option string :=
  fold_left (fun found cols =>
               match cols with
               | c0 :: c1 :: _ => if String.eqb c0 key then Some c1 else found
               | _ => found
               end) table_rows found.

End db_services_rates.

(** ** [scraper.py]

    The pages are outside the program.  The topics page is an exception or
    the anchors of its first [list-view--item] block, if it has one; an
    anchor is its stripped text and its [href], if any.  [fetch k url] is
    what fetching and parsing the page of the [k]-th anchor gives: an
    exception, or the stripped text of its [sf-content-block], if it has
    one.  What [print] writes is left out. *)

Module scraper.

Inductive error : Type :=
| RequestException
| ValueError
| OtherException.

Inductive result (A : Type) : Type :=
| Ok (a : A)
| Error (e : error).
Arguments Ok {A} a.
Arguments Error {A} e.

Record anchor : Type := mkAnchor {
  text : string;
  href : option string
}.

Definition startswith (s prefix : string) : bool := String.prefix prefix s.

Definition nonempty (s : string) : bool :=
  match s with
  | EmptyString => false
  | String _ _ => true
  end.

Definition excluded (disease_name : string) : bool :=
  startswith disease_name "See all"
  || startswith disease_name "More"
  || startswith disease_name "View all".

Definition full_url_of (disease_url : string) : string :=
  if startswith disease_url "http" then disease_url
  else ("https://www.who.int" ++ disease_url)%string.

Definition disease_data (disease_name description full_url : string)
  : list (string * string) :=
  [("disease", disease_name); ("description", description);
   ("source", "WHO Health Topics"); ("url", full_url)]%string.

Fixpoint extract_loop (k : nat) (entries : list anchor)
  (fetch : nat -> string -> result (option string))
  (diseases_list : list (list (string * string)))
  : result (list (list (string * string))) :=
  match entries with
  | [] => Ok diseases_list
  | entry :: rest =>
      let disease_name := text entry in
      match href entry with
      | Some disease_url =>
          if nonempty disease_name && nonempty disease_url
             && negb (excluded disease_name)
          then
            let full_url := full_url_of disease_url in
            match fetch k full_url with
            | Ok description_elem =>
                let description :=
                  match description_elem with
                  | Some t => (substring 0 200 t ++ "...")%string
                  | None => "No description available."%string
                  end in
                extract_loop (S k) rest fetch
                  (diseases_list
                   ++ [disease_data disease_name description full_url])
            | Error RequestException | Error ValueError =>
                extract_loop (S k) rest fetch
                  (diseases_list
                   ++ [disease_data disease_name "No description available."
                                    full_url])
            | Error OtherException => Error OtherException
            end
          else extract_loop (S k) rest fetch diseases_list
      | None => extract_loop (S k) rest fetch diseases_list
      end
  end.

(** The entries for which the loop adds a record. *)
Definition kept (entry : anchor) : bool :=
  match href entry with
  | Some disease_url =>
      nonempty (text entry) && nonempty disease_url
      && negb (excluded (text entry))
  | None => false
  end.

(** What a record of the list is made of. *)
Definition well_formed_record (d : list (string * string)) : Prop :=
  exists disease_name description disease_url,
    d = disease_data disease_name description (full_url_of disease_url)
    /\ nonempty disease_name = true
    /\ excluded disease_name = false
    /\ nonempty disease_url = true
    /\ (String.length description <= 203)%nat.

Definition extract_diseases (content : option (list anchor))
  (fetch : nat -> string -> result (option string))
  : result (list (list (string * string))) :=
  match content with
  | None => Ok []
  | Some disease_entries => extract_loop 0 (firstn 10 disease_entries) fetch []
  end.

(** [scrape]: the file [scraped_diseases.json] before and after, as the
    list that [json.dump] writes to it; [None] when the file does not
    exist.  Both [except] clauses only print. *)
Definition scrape (top : result (option (list anchor)))
  (fetch : nat -> string -> result (option string))
  (file : option (list (list (string * string))))
  : option (list (list (string * string))) :=
  match top with
  | Error e => file
  | Ok content =>
      match extract_diseases content fetch with
      | Ok diseases_list => Some diseases_list
      | Error e => file
      end
  end.

End scraper.

(** ** [client_cli.py]

    The terminal is a [world]: the lines still to be read from standard
    input, what [print] has written, the table, and a counter of the calls
    made to the outside (storage layer, mail service).  The outside is an
    [environment]: what the storage layer and the mail service do at each
    such call, and the file of scraped diseases.  A prompt of [input] is
    not part of what is written; [input] on an exhausted input raises
    [EOFError]. *)

Module client_cli.
Import python model sqlite3.

Inductive error : Type :=
| EOFError
| Raised (e : exn).

(** What a [print] writes: its text, or for the calls whose text depends
    on [repr], [str(e)], [json.dumps] or float formatting, the values
    printed. *)
Inductive printed : Type :=
| Line (s : string)
| CreatedLine (name age disease : string)
| EmailFailedLine (e : exn)
| ReadErrorLine (e : exn)
| AverageLine (average_age : float)
| DiseasesDump (diseases : list (list (string * string))).

(** The file of scraped diseases at the time it is opened. *)
Inductive scraped_file : Type :=
| FileNotFound
| InvalidJSON
| Unreadable (e : exn)
| Holds (diseases : list (list (string * string))).

Record environment : Type := mkEnvironment {
  io : nat -> fault;
  mail : nat -> outcome unit;
  scraped : scraped_file
}.

Record world : Type := mkWorld {
  stdin : list string;
  stdout : list printed;
  table : Store;
  tick : nat
}.

Definition cli (A : Type) : Type := world -> (A + error) * world.

Definition ret {A} (a : A) : cli A := fun w => (inl a, w).

Definition raise {A} (e : error) : cli A := fun w => (inr e, w).

Definition bind {A B} (m : cli A) (k : A -> cli B) : cli B :=
  fun w =>
    match m w with
    | (inl a, w') => k a w'
    | (inr e, w') => (inr e, w')
    end.

(** [try: body except ValueError: handler] *)
Definition except_ValueError {A} (body handler : cli A) : cli A :=
  fun w =>
    match body w with
    | (inr (Raised ValueError), w') => handler w'
    | r => r
    end.

Definition input : cli string :=
  fun w =>
    match stdin w with
    | [] => (inr EOFError, w)
    | line :: rest =>
        (inl line, mkWorld rest (stdout w) (table w) (tick w))
    end.

Definition print (p : printed) : cli unit :=
  fun w => (inl tt, mkWorld (stdin w) (stdout w ++ [p]) (table w) (tick w)).

(** [int(input(...))] *)
Definition int_input : cli Z :=
  bind input (fun line =>
    match int (PyStr line) with
    | Returns n => ret n
    | Raises e => raise (Raised e)
    end).

(** [str.strip()] and [str.lower()] on code points below 256: white space
    is [Py_UNICODE_ISSPACE]; the upper-case letters are A to Z and U+00C0
    to U+00DE without the multiplication sign U+00D7, each 32 below its
    lower-case letter. *)
Definition isspace (c : ascii) : bool := Py_UNICODE_ISSPACE c.

Fixpoint lstrip (s : list ascii) : list ascii :=
  match s with
  | c :: s' => if isspace c then lstrip s' else s
  | [] => []
  end.

Definition strip (s : string) : string :=
  string_of_list_ascii
    (rev (lstrip (rev (lstrip (list_ascii_of_string s))))).

Definition lower_char (c : ascii) : ascii :=
  let n := N_of_ascii c in
  if (((65 <=? n) && (n <=? 90))
      || ((192 <=? n) && (n <=? 222) && negb (n =? 215)))%N
  then ascii_of_N (n + 32) else c.

Fixpoint lower (s : string) : string :=
  match s with
  | EmptyString => EmptyString
  | String c s' => String (lower_char c) (lower s')
  end.

(** [f"ID: {p.id}, Name: {p.name}, Age: {p.age}, Disease: {p.disease}"] *)
Definition patient_line (p : Patient) : string :=
  ("ID: " ++ match id p with
             | Some i => crud_routes.str_of_int i
             | None => "None"
             end
   ++ ", Name: " ++ crud_routes.str_of_val (name p)
   ++ ", Age: " ++ crud_routes.str_of_val (age p)
   ++ ", Disease: " ++ crud_routes.str_of_val (disease p))%string.

Fixpoint print_patients (patients : list Patient) : cli unit :=
  match patients with
  | [] => ret tt
  | patient :: rest =>
      bind (print (Line (patient_line patient))) (fun _ => print_patients rest)
  end.

Section Menu.
Variable env : environment.

(** A call of a reading function of [db_services]. *)
Definition reading {A} (f : fault -> Store -> A) : cli A :=
  fun w =>
    (inl (f (io env (tick w)) (table w)),
     mkWorld (stdin w) (stdout w) (table w) (S (tick w))).

(** A call of a writing function of [db_services]. *)
Definition writing {A} (f : fault -> Store -> A * Store) : cli A :=
  fun w =>
    let '(a, st') := f (io env (tick w)) (table w) in
    (inl a, mkWorld (stdin w) (stdout w) st' (S (tick w))).

(** [send_gmail(...)] *)
Definition send_gmail : cli (outcome unit) :=
  fun w =>
    (inl (mail env (tick w)),
     mkWorld (stdin w) (stdout w) (table w) (S (tick w))).

Definition choice_1 : cli unit :=
  bind input (fun name =>
  bind input (fun age =>
  bind input (fun disease =>
  bind (writing (fun io st =>
          db_services.create_patient io
            (mkPatient None (PyStr name) (PyStr age) (PyStr disease)) st))
       (fun patient_id =>
  match patient_id with
  | None => print (Line "Failed to create patient.")
  | Some _ =>
      bind send_gmail (fun sent =>
      bind match sent with
           | Returns _ => print (Line "Email notification sent successfully.")
           | Raises e => print (EmailFailedLine e)
           end (fun _ =>
      print (CreatedLine name age disease)))
  end)))).

Definition choice_2 : cli unit :=
  bind (reading db_services.read_all_patients) (fun patients =>
  match patients with
  | [] => print (Line "No patients found.")
  | _ :: _ =>
      bind (print (Line "Patients:")) (fun _ => print_patients patients)
  end).

Definition choice_3 : cli unit :=
  bind int_input (fun patient_id =>
  bind (reading (fun io st => db_services.read_patient_by_id io patient_id st))
       (fun patient =>
  match patient with
  | None => print (Line "Patient not found.")
  | Some patient => print (Line (patient_line patient))
  end)).

(** [input("...") if user_input != "f" else old] *)
Definition ask_field (old : pyval) : cli pyval :=
  bind input (fun user_input =>
  if String.eqb (lower (strip user_input)) "f" then ret old
  else bind input (fun value => ret (PyStr value))).

Definition choice_4 : cli unit :=
  bind int_input (fun patient_id =>
  bind (reading (fun io st => db_services.read_patient_by_id io patient_id st))
       (fun old_patient =>
  match old_patient with
  | None => print (Line "Patient not found.")
  | Some old_patient =>
      bind (print (Line ("Current: " ++ patient_line old_patient))) (fun _ =>
      bind (ask_field (name old_patient)) (fun new_name =>
      bind (ask_field (age old_patient)) (fun new_age =>
      bind (ask_field (disease old_patient)) (fun new_disease =>
      let updated_patient :=
        mkPatient (id old_patient) new_name new_age new_disease in
      bind (writing (fun io st =>
              db_services.update_patient io updated_patient st))
           (fun rows_updated =>
      if rows_updated =? 0 then print (Line "Patient update failed.")
      else print (Line "Patient updated successfully."))))))
  end)).

Definition choice_5 : cli unit :=
  bind int_input (fun patient_id =>
  bind (reading (fun io st => db_services.read_patient_by_id io patient_id st))
       (fun old_patient =>
  match old_patient with
  | None => print (Line "Patient not found.")
  | Some old_patient =>
      bind (print (Line ("Patient: " ++ patient_line old_patient))) (fun _ =>
      bind input (fun answer =>
      if String.eqb (lower answer) "y" then
        bind (writing (fun io st =>
                db_services.delete_patient io patient_id st))
             (fun rows_deleted =>
        if rows_deleted =? 0 then print (Line "Patient deletion failed.")
        else print (Line "Patient deleted successfully."))
      else ret tt))
  end)).

Definition choice_6 : cli unit :=
  match scraped env with
  | FileNotFound =>
      print (Line ("Scraped disease file not found. "
                   ++ "Please scrape disease information first."))
  | InvalidJSON =>
      print (Line "Error: Invalid JSON format in scraped disease file.")
  | Unreadable e => print (ReadErrorLine e)
  | Holds [] => print (Line "No disease information found in the file.")
  | Holds diseases =>
      bind (print (Line "Disease Information (JSON Contents):")) (fun _ =>
      print (DiseasesDump diseases))
  end.

Definition choice_7 : cli unit :=
  bind (reading (fun io st => db_services.calculate_average_age io 5 st))
       (fun average_age =>
  match average_age with
  | Raises e => raise (Raised e)
  | Returns None => print (Line "No valid ages found for average calculation.")
  | Returns (Some average_age) => print (AverageLine average_age)
  end).

Definition menu : cli (option Z) :=
  except_ValueError
    (bind int_input (fun choice =>
     bind (print (Line (crud_routes.str_of_int choice))) (fun _ =>
     bind (if choice =? 1 then choice_1
           else if choice =? 2 then choice_2
           else if choice =? 3 then choice_3
           else if choice =? 4 then choice_4
           else if choice =? 5 then choice_5
           else if choice =? 6 then choice_6
           else if choice =? 7 then choice_7
           else ret tt) (fun _ =>
     ret (Some choice)))))
    (bind (print (Line "Invalid input. Please enter a number between 1 and 8."))
          (fun _ => ret None)).

(** [while choice != 8: choice = menu()], after the first [menu()].  Every
    call of [menu] reads a line or raises, so [fuel] above the number of
    lines left is never used up. *)
Fixpoint menus_loop (fuel : nat) : cli unit :=
  match fuel with
  | O => raise EOFError
  | S fuel' =>
      bind menu (fun choice =>
      match choice with
      | Some 8 => ret tt
      | _ => menus_loop fuel'
      end)
  end.

Definition menus : cli unit :=
  fun w =>
    bind (print (Line "***************Patient Management App***************"))
         (fun _ =>
    bind (menus_loop (S (List.length (stdin w)))) (fun _ =>
    print (Line "Thank you for using the app"))) w.

End Menu.

(** *** What a step of the client may do *)

(** The step does not write the table. *)
Definition quiet {A} (m : cli A) : Prop :=
  forall w, table (snd (m w)) = table w.

(** The step does not end in [ValueError]. *)
Definition no_ValueError {A} (m : cli A) : Prop :=
  forall w, fst (m w) <> inr (Raised ValueError).

(** If the step ends in [ValueError], it has not written the table. *)
Definition quiet_on_ValueError {A} (m : cli A) : Prop :=
  forall w, fst (m w) = inr (Raised ValueError) ->
            table (snd (m w)) = table w.

(** The step only reads from standard input. *)
Definition reads_on {A} (m : cli A) : Prop :=
  forall w, (List.length (stdin (snd (m w))) <= List.length (stdin w))%nat.

(** The step reads at least one line, unless it ends in [EOFError]. *)
Definition reads_a_line {A} (m : cli A) : Prop :=
  forall w,
    (List.length (stdin (snd (m w))) < List.length (stdin w))%nat
    \/ fst (m w) = inr EOFError.

(** The step only adds to what is written. *)
Definition writes_on {A} (m : cli A) : Prop :=
  forall w, exists more, stdout (snd (m w)) = stdout w ++ more.

(** The exceptions the step may end in. *)
Definition fails_within {A} (allowed : error -> Prop) (m : cli A) : Prop :=
  forall w e, fst (m w) = inr e -> allowed e.

Definition eof_or_overflow (e : error) : Prop :=
  e = EOFError \/ e = Raised OverflowError.

Definition eof_value_or_overflow (e : error) : Prop :=
  e = EOFError \/ e = Raised ValueError \/ e = Raised OverflowError.

End client_cli.

(** * Properties *)

Import python model sqlite3 db_services spec.

(** ** The aggregation loops *)

Section Aggregation.

Lemma int_raises (x : pyval) (e : exn) :
  int x = Raises e -> handles [ValueError; TypeError] e = true.
Proof.
  destruct x as [|s]; cbn.
  - intros [= <-]. reflexivity.
  - destruct (long_from_string _); intros [= <-]. reflexivity.
Qed.

Lemma sum_of_ages_cons (p : Patient) (ps : list Patient) :
  sum_of_ages (p :: ps)
  = (if parses p then parsed_age p else 0) + sum_of_ages ps.
Proof.
  unfold sum_of_ages, sum_Z. cbn [filter].
  destruct (parses p); cbn [map fold_right]; lia.
Qed.

Lemma count_of_ages_cons (p : Patient) (ps : list Patient) :
  count_of_ages (p :: ps)
  = (if parses p then 1 else 0) + count_of_ages ps.
Proof.
  unfold count_of_ages. cbn [filter].
  destruct (parses p); cbn [List.length]; lia.
Qed.

Lemma sum_of_ages_app (ps qs : list Patient) :
  sum_of_ages (ps ++ qs) = sum_of_ages ps + sum_of_ages qs.
Proof.
  induction ps as [|p ps IH]; [reflexivity|].
  rewrite <- app_comm_cons, !sum_of_ages_cons, IH. lia.
Qed.

Lemma count_of_ages_app (ps qs : list Patient) :
  count_of_ages (ps ++ qs) = count_of_ages ps + count_of_ages qs.
Proof.
  induction ps as [|p ps IH]; [reflexivity|].
  rewrite <- app_comm_cons, !count_of_ages_cons, IH. lia.
Qed.

Lemma count_of_ages_bounds (ps : list Patient) :
  0 <= count_of_ages ps <= Z.of_nat (List.length ps).
Proof.
  unfold count_of_ages. pose proof (filter_length_le parses ps). lia.
Qed.

Lemma batch_loop_spec (ps : list Patient) (t c : Z) :
  batch_loop ps t c = Returns (t + sum_of_ages ps, c + count_of_ages ps).
Proof.
  revert t c. induction ps as [|p ps IH]; intros t c.
  - cbn. do 2 f_equal; unfold count_of_ages; cbn; lia.
  - cbn [batch_loop].
    rewrite sum_of_ages_cons, count_of_ages_cons.
    unfold parses, parsed_age.
    destruct (int (age p)) as [a|e] eqn:E.
    + rewrite IH. do 2 f_equal; lia.
    + rewrite (int_raises _ _ E), IH. do 2 f_equal; lia.
Qed.

Lemma ages_loop_spec (ps : list Patient) (t c : Z) :
  ages_loop ps t c = Returns (t + sum_of_ages ps, c + count_of_ages ps).
Proof.
  revert t c. induction ps as [|p ps IH]; intros t c.
  - cbn. do 2 f_equal; unfold count_of_ages; cbn; lia.
  - cbn [ages_loop].
    rewrite sum_of_ages_cons, count_of_ages_cons.
    unfold parses, parsed_age.
    destruct (int (age p)) as [a|e] eqn:E.
    + rewrite IH. do 2 f_equal; lia.
    + rewrite (int_raises _ _ E), IH. do 2 f_equal; lia.
Qed.

(** Joining the workers' results adds up the batches. *)
Lemma join_batches (batches : list (list Patient)) (t c : Z) :
  join (map calculate_batch_average_age batches) t c
  = Returns (t + sum_of_ages (List.concat batches),
             c + count_of_ages (List.concat batches)).
Proof.
  revert t c. induction batches as [|b bs IH]; intros t c.
  - cbn. do 2 f_equal; unfold count_of_ages; cbn; lia.
  - cbn [map join List.concat]. unfold calculate_batch_average_age at 1.
    rewrite batch_loop_spec, IH, sum_of_ages_app, count_of_ages_app.
    do 2 f_equal; lia.
Qed.

End Aggregation.

(** ** Batches: slices of [batch_size] records cover the record list *)

Section Batches.
Context {A : Type}.

Lemma slice_window (l : list A) (i w : nat) :
  slice l (Z.of_nat i) (Z.of_nat i + Z.of_nat w) = firstn w (skipn i l).
Proof.
  unfold slice, slice_index.
  destruct (Z.ltb_spec (Z.of_nat i) 0) as [Hneg|_]; [lia|].
  destruct (Z.ltb_spec (Z.of_nat i + Z.of_nat w) 0) as [Hneg|_]; [lia|].
  destruct (Nat.le_gt_cases i (List.length l)) as [Hin|Hout].
  - replace (Z.to_nat (Z.min (Z.of_nat i) (Z.of_nat (List.length l))))
      with i by lia.
    destruct (Nat.le_gt_cases w (List.length l - i)) as [Hw|Hw].
    + f_equal. lia.
    + rewrite !firstn_all2; [reflexivity| |]; rewrite length_skipn; lia.
  - rewrite (skipn_all2 l (n:=i)) by lia.
    rewrite firstn_nil.
    replace (Z.to_nat (Z.min (Z.of_nat i) (Z.of_nat (List.length l))))
      with (List.length l) by lia.
    rewrite skipn_all. apply firstn_nil.
Qed.

Lemma firstn_extend (a w : nat) (l : list A) :
  firstn a l ++ firstn w (skipn a l) = firstn (a + w) l.
Proof.
  revert l. induction a as [|a IH]; intros l; [reflexivity|].
  destruct l as [|x l]; cbn [firstn skipn Nat.add app].
  - now rewrite firstn_nil.
  - now rewrite IH.
Qed.

(** The first [n] windows of width [b] make up the first [n * b]
    elements. *)
Lemma windows_firstn (b : nat) (l : list A) (n : nat) :
  List.concat (map (fun k => firstn b (skipn (k * b) l)) (seq 0 n))
  = firstn (n * b) l.
Proof.
  induction n as [|n IH]; [reflexivity|].
  rewrite seq_S, map_app, concat_app, IH. cbn [map List.concat Nat.add].
  rewrite app_nil_r, firstn_extend. f_equal. lia.
Qed.

(** The batches of [calculate_average_age], for a batch size of at least
    one: in order, they are the record list. *)
Lemma batches_cover (l : list A) (batch_size : Z) :
  1 <= batch_size ->
  exists starts,
    range 0 (Z.of_nat (List.length l)) batch_size = Returns starts
    /\ List.concat (map (fun i => slice l i (i + batch_size)) starts) = l.
Proof.
  intros Hb. unfold range.
  destruct (Z.eqb_spec batch_size 0) as [?|_]; [lia|].
  destruct (Z.ltb_spec 0 batch_size) as [_|?]; [|lia].
  eexists; split; [reflexivity|].
  rewrite map_map.
  set (b := Z.to_nat batch_size).
  rewrite (map_ext _ (fun k => firstn b (skipn (k * b) l))).
  2:{ intros k. rewrite <- slice_window. subst b. f_equal; lia. }
  rewrite windows_firstn. apply firstn_all2.
  destruct (Z.ltb_spec 0 (Z.of_nat (List.length l))) as [Hpos|Hz]; [|lia].
  rewrite Z.sub_0_r.
  pose proof (Z.div_mod (Z.of_nat (List.length l) - 1) batch_size ltac:(lia))
    as Hdm.
  pose proof (Z.mod_pos_bound (Z.of_nat (List.length l) - 1) batch_size
                ltac:(lia)) as Hm.
  pose proof (Z.div_pos (Z.of_nat (List.length l) - 1) batch_size
                ltac:(lia) ltac:(lia)) as Hq.
  nia.
Qed.

End Batches.

(** ** Both aggregations compute [average] of what they read *)

Section Averages.

Lemma calculate_average_ages_spec (io : fault) (st : Store) :
  calculate_average_ages io st = average (read_all_patients io st).
Proof.
  unfold calculate_average_ages.
  destruct (read_all_patients io st) as [|p ps] eqn:E; [reflexivity|].
  rewrite ages_loop_spec. reflexivity.
Qed.

Lemma calculate_average_age_spec (io : fault) (batch_size : Z) (st : Store) :
  1 <= batch_size ->
  calculate_average_age io batch_size st = average (read_all_patients io st).
Proof.
  intros Hb. unfold calculate_average_age.
  destruct (read_all_patients io st) as [|p ps] eqn:E; [reflexivity|].
  destruct (batches_cover (p :: ps) batch_size Hb) as (starts & -> & Hcat).
  cbn [bind].
  rewrite <- (map_map (fun i => slice (p :: ps) i (i + batch_size))
                calculate_batch_average_age).
  rewrite join_batches, Hcat. reflexivity.
Qed.

End Averages.

(** ** The record store *)

Section RecordStore.

Lemma store_eta (st : Store) :
  {| rows := rows st; sequence := sequence st |} = st.
Proof. now destruct st. Qed.

Lemma increasing_above (lo : Z) (l : list Z) :
  increasing lo l -> Forall (fun i => lo < i) l.
Proof.
  revert lo. induction l as [|i l IH]; intros lo H; [constructor|].
  destruct H as [Hlo Hl]. constructor; [exact Hlo|].
  eapply Forall_impl; [|apply (IH _ Hl)]. cbn. lia.
Qed.

Lemma increasing_NoDup (lo : Z) (l : list Z) : increasing lo l -> NoDup l.
Proof.
  revert lo. induction l as [|i l IH]; intros lo H; [constructor|].
  destruct H as [_ Hl]. constructor; [|apply (IH _ Hl)].
  intros Hin. pose proof (increasing_above _ _ Hl) as Hab.
  rewrite Forall_forall in Hab. specialize (Hab _ Hin). lia.
Qed.

Lemma increasing_snoc (lo i : Z) (l : list Z) :
  increasing lo l -> lo < i -> Forall (fun j => j < i) l ->
  increasing lo (l ++ [i]).
Proof.
  revert lo. induction l as [|j l IH]; intros lo Hl Hlo Hall; cbn.
  - auto.
  - destruct Hl as [Hj Hl]. inversion Hall; subst.
    split; [exact Hj|]. apply IH; assumption.
Qed.

Lemma increasing_filter (f : Z -> bool) (lo : Z) (l : list Z) :
  increasing lo l -> increasing lo (filter f l).
Proof.
  revert lo. induction l as [|i l IH]; intros lo H; [exact I|].
  destruct H as [Hlo Hl]. cbn [filter].
  assert (Hrest : increasing lo (filter f l)).
  { apply IH. destruct l as [|j l']; [exact I|].
    destruct Hl as [Hij Hl']. split; [lia|exact Hl']. }
  destruct (f i); [|exact Hrest].
  split; [exact Hlo|]. apply IH, Hl.
Qed.

Lemma largest_rowid_wf (st : Store) : wf st -> largest_rowid st = sequence st.
Proof.
  intros (_ & Hall & _). unfold largest_rowid. fold (ids st).
  induction Hall as [|i l Hi _ IH]; cbn; lia.
Qed.

(** What one [create_patient] call does: nothing, or one row appended
    under a rowid above every rowid of the table. *)
Lemma create_patient_cases (io : fault) (p : Patient) (st : Store) :
  create_patient io p st = (None, st)
  \/ exists n a d,
      name p = PyStr n /\ age p = PyStr a /\ disease p = PyStr d
      /\ largest_rowid st < max_rowid
      /\ create_patient io p st
         = (Some (largest_rowid st + 1),
            {| rows := rows st ++ [mkRow (largest_rowid st + 1) n a d];
               sequence := largest_rowid st + 1 |}).
Proof.
  unfold create_patient, insert.
  destruct io as [e|]; [now left|]. cbn [connect bind].
  destruct (name p) as [|n]; [now left|].
  destruct (age p) as [|a]; [now left|].
  destruct (disease p) as [|d]; [now left|]. cbn [not_null bind].
  destruct (Z.leb_spec max_rowid (largest_rowid st)); [now left|].
  right. exists n, a, d. auto.
Qed.

(** A call with text in the three fields, on a working store with rowids
    to spare, succeeds. *)
Lemma create_patient_succeeds (i : option Z) (n a d : string) (st : Store) :
  largest_rowid st < max_rowid ->
  create_patient None (mkPatient i (PyStr n) (PyStr a) (PyStr d)) st
  = (Some (largest_rowid st + 1),
     {| rows := rows st ++ [mkRow (largest_rowid st + 1) n a d];
        sequence := largest_rowid st + 1 |}).
Proof.
  intros H. unfold create_patient, insert. cbn.
  destruct (Z.leb_spec max_rowid (largest_rowid st)); [lia|reflexivity].
Qed.

Lemma create_patient_wf (io : fault) (p : Patient) (st : Store) :
  wf st -> wf (snd (create_patient io p st)).
Proof.
  intros Hwf.
  destruct (create_patient_cases io p st)
    as [->|(n & a & d & _ & _ & _ & _ & ->)]; [exact Hwf|].
  rewrite (largest_rowid_wf _ Hwf). destruct Hwf as (Hinc & Hall & Hseq).
  unfold wf, ids in *. cbn [snd rows sequence]. rewrite map_app. cbn [map row_id].
  repeat split.
  - apply increasing_snoc; [exact Hinc|lia|].
    eapply Forall_impl; [|exact Hall]. cbn. lia.
  - apply Forall_app. split.
    + eapply Forall_impl; [|exact Hall]. cbn. lia.
    + repeat constructor. lia.
  - lia.
Qed.

Lemma update_ids (n a d : pyval) (i : option Z) (st st' : Store) (k : Z) :
  update n a d i st = Returns (k, st') ->
  ids st' = ids st /\ sequence st' = sequence st.
Proof.
  unfold update. destruct i as [i|]; [|intros [= _ <-]; auto].
  destruct (rowcount i st =? 0); [intros [= _ <-]; auto|].
  destruct n as [|n]; [discriminate|]. destruct a as [|a]; [discriminate|].
  destruct d as [|d]; [discriminate|]. cbn. intros [= _ <-].
  split; [|reflexivity]. unfold ids. cbn [rows]. rewrite map_map.
  apply map_ext. intros r. now destruct (id_is i r).
Qed.

Lemma update_patient_wf (io : fault) (p : Patient) (st : Store) :
  wf st -> wf (snd (update_patient io p st)).
Proof.
  intros Hwf. unfold update_patient.
  destruct io as [e|]; [exact Hwf|]. cbn [connect bind].
  destruct (update _ _ _ _ st) as [[k st']|e] eqn:E; [|exact Hwf].
  destruct (update_ids _ _ _ _ _ _ _ E) as [Hids Hseq].
  unfold wf. cbn [snd]. now rewrite Hids, Hseq.
Qed.

Lemma ids_filter (i : Z) (l : list Row) :
  map row_id (filter (fun r => negb (id_is i r)) l)
  = filter (fun j => negb (j =? i)) (map row_id l).
Proof.
  induction l as [|r l IH]; [reflexivity|]. cbn [filter map].
  unfold id_is at 1. destruct (row_id r =? i); cbn [negb map]; now rewrite IH.
Qed.

Lemma delete_patient_wf (io : fault) (i : Z) (st : Store) :
  wf st -> wf (snd (delete_patient io i st)).
Proof.
  intros Hwf. unfold delete_patient.
  destruct io as [e|]; [exact Hwf|]. cbn [connect bind delete snd].
  destruct Hwf as (Hinc & Hall & Hseq). unfold wf, ids in *.
  cbn [rows sequence].
  rewrite ids_filter. repeat split.
  - now apply increasing_filter.
  - rewrite Forall_forall in *. intros j Hj. apply Hall.
    apply filter_In in Hj. tauto.
  - exact Hseq.
Qed.

Lemma wf_empty : wf empty.
Proof. repeat split; [constructor|cbn; lia]. Qed.

Lemma wf_NoDup (st : Store) : wf st -> NoDup (ids st).
Proof. intros (Hinc & _). eapply increasing_NoDup, Hinc. Qed.

End RecordStore.

(** ** The average age *)

Section AverageAge.

Lemma read_without_unparsable (st : Store) :
  read_all_patients None (without_unparsable st)
  = filter parses (read_all_patients None st).
Proof.
  unfold read_all_patients, without_unparsable. cbn [connect bind rows].
  induction (rows st) as [|r l IH]; [reflexivity|]. cbn [filter map].
  destruct (parses (Patient_of_row r)); cbn [map]; now rewrite IH.
Qed.

Lemma filter_parses_twice (ps : list Patient) :
  filter parses (filter parses ps) = filter parses ps.
Proof.
  induction ps as [|p ps IH]; [reflexivity|]. cbn [filter].
  destruct (parses p) eqn:E; [|exact IH]. cbn [filter]. now rewrite E, IH.
Qed.

Lemma average_filter (ps : list Patient) :
  average (filter parses ps) = average ps.
Proof.
  unfold average, sum_of_ages, count_of_ages.
  now rewrite filter_parses_twice.
Qed.

(** C1. The batched aggregation [calculate_average_age], for any batch size
    of at least one (5 by default), and the single-pass aggregation
    [calculate_average_ages] give the same outcome on every table, whatever
    the storage layer does: [None] together, the same float together, and
    the same exception together. *)
Theorem batched_equals_single_pass (io : fault) (batch_size : Z) (st : Store) :
  1 <= batch_size ->
  calculate_average_age io batch_size st = calculate_average_ages io st.
Proof.
  intros Hb.
  now rewrite calculate_average_age_spec, calculate_average_ages_spec.
Qed.

Lemma batched_equals_single_pass_witness :
  1 <= 5
  /\ calculate_average_age None 5 test_store
     = calculate_average_ages None test_store.
Proof.
  split; [lia|]. apply (batched_equals_single_pass None 5 test_store). lia.
Defined.

(** C2. On a fixed table, [calculate_average_age] gives the same outcome
    for any two batch sizes that are at least one. *)
Theorem batch_size_invariance (io : fault) (b1 b2 : Z) (st : Store) :
  1 <= b1 -> 1 <= b2 ->
  calculate_average_age io b1 st = calculate_average_age io b2 st.
Proof.
  intros H1 H2. now rewrite !calculate_average_age_spec.
Qed.

Lemma batch_size_invariance_witness :
  1 <= 1 /\ 1 <= 3
  /\ calculate_average_age None 1 test_store
     = calculate_average_age None 3 test_store.
Proof.
  split; [lia|]. split; [lia|].
  apply (batch_size_invariance None 1 3 test_store); lia.
Defined.

(** C3. On a table with at least one parseable age, the result of
    [calculate_average_age] is the sum of the parseable ages divided (by
    Python's [/]) by their count; it is the result on the table without the
    rows whose age does not parse, so such a row changes nothing and stops
    nothing.  On the ages "45", "32", "60", "invalid" the result is
    [(45 + 32 + 60) / 3], which to two decimals is [45.67]. *)
Theorem average_of_parseable_ages (batch_size : Z) (st : Store) :
  1 <= batch_size ->
  0 < count_of_ages (read_all_patients None st) ->
  calculate_average_age None batch_size st
  = (x <- int_true_divide (sum_of_ages (read_all_patients None st))
                          (count_of_ages (read_all_patients None st)) ;;
     Returns (Some x))
  /\ calculate_average_age None batch_size st
     = calculate_average_age None batch_size (without_unparsable st)
  /\ map age (read_all_patients None test_store)
     = [PyStr "45"; PyStr "32"; PyStr "60"; PyStr "invalid"]%string
  /\ calculate_average_age None 5 test_store
     = (x <- int_true_divide (45 + 32 + 60) 3 ;; Returns (Some x))
  /\ (x <- int_true_divide (45 + 32 + 60) 3 ;; round x 2)
     = int_true_divide 4567 100.
Proof.
  intros Hb Hc. split; [|split; [|split; [|split]]].
  - rewrite calculate_average_age_spec by exact Hb. unfold average.
    destruct (Z.eqb_spec (count_of_ages (read_all_patients None st)) 0);
      [lia|reflexivity].
  - rewrite !calculate_average_age_spec by exact Hb.
    now rewrite read_without_unparsable, average_filter.
  - vm_compute. reflexivity.
  - vm_compute. reflexivity.
  - vm_compute. reflexivity.
Qed.

Lemma average_of_parseable_ages_witness :
  1 <= 2
  /\ 0 < count_of_ages (read_all_patients None test_store)
  /\ calculate_average_age None 2 test_store
     = calculate_average_age None 2 (without_unparsable test_store).
Proof.
  assert (Hb : 1 <= 2) by lia.
  assert (Hc : 0 < count_of_ages (read_all_patients None test_store))
    by (vm_compute; reflexivity).
  split; [exact Hb|]. split; [exact Hc|].
  apply (average_of_parseable_ages 2 test_store Hb Hc).
Defined.

(** The quotient is a float: ages beyond the range of a float make the
    division, and with it both aggregations, raise [OverflowError]. *)
Example average_out_of_float_range :
  int_true_divide (10 ^ 309) 1 = Raises OverflowError.
Proof. vm_compute. reflexivity. Qed.

(** C4. On a table that is empty, or in which no age parses, the
    aggregations return [None], for every batch size other than 0 and
    whatever the storage layer does; [None] is not the float zero, which
    is the result when every parseable age is 0. *)
Theorem no_valid_data (io : fault) (batch_size : Z) (st : Store) :
  batch_size <> 0 ->
  read_all_patients io st = []
  \/ count_of_ages (read_all_patients io st) = 0 ->
  calculate_average_age io batch_size st = Returns None
  /\ calculate_average_ages io st = Returns None
  /\ Returns (@None float) <> Returns (Some (S754_zero false))
  /\ calculate_average_age None 5 newborn_store
     = Returns (Some (S754_zero false)).
Proof.
  intros Hb H.
  assert (Hc : count_of_ages (read_all_patients io st) = 0).
  { destruct H as [->|H]; [reflexivity|exact H]. }
  assert (Hs : calculate_average_ages io st = Returns None).
  { rewrite calculate_average_ages_spec. unfold average. now rewrite Hc. }
  split; [|split; [exact Hs|split; [discriminate|vm_compute; reflexivity]]].
  destruct (Z.le_gt_cases 1 batch_size) as [Hpos|Hneg].
  - now rewrite calculate_average_age_spec, <- calculate_average_ages_spec.
  - unfold calculate_average_age, range.
    destruct (read_all_patients io st) as [|p ps]; [reflexivity|].
    destruct (Z.eqb_spec batch_size 0) as [?|_]; [lia|].
    destruct (Z.ltb_spec 0 batch_size) as [?|_]; [lia|].
    destruct (Z.ltb_spec (Z.of_nat (List.length (p :: ps))) 0) as [?|_];
      [lia|reflexivity].
Qed.

Lemma no_valid_data_witness :
  5 <> 0
  /\ calculate_average_age None 5 empty = Returns None
  /\ calculate_average_ages None empty = Returns None.
Proof.
  assert (Hb : 5 <> 0) by lia.
  split; [exact Hb|].
  destruct (no_valid_data None 5 empty Hb (or_introl eq_refl))
    as (H1 & H2 & _).
  split; [exact H1|exact H2].
Defined.

(** C9. [calculate_batch_average_age] returns on every list of records,
    whatever their ages hold: the sum of the ages that parse and their
    count, which lies between 0 and the length of the list.  On the batch
    [mixed_ages] the ages read as 45, [TypeError], [ValueError], -40, 5 and
    [ValueError], so the function returns the sum 10 of 3 ages. *)
Theorem calculate_batch_average_age_total (patients : list Patient) :
  calculate_batch_average_age patients
  = Returns (sum_of_ages patients, count_of_ages patients)
  /\ 0 <= count_of_ages patients <= Z.of_nat (List.length patients)
  /\ map (fun p => int (age p)) mixed_ages
     = [Returns 45; Raises TypeError; Raises ValueError; Returns (-40);
        Returns 5; Raises ValueError]
  /\ calculate_batch_average_age mixed_ages = Returns (10, 3).
Proof.
  split; [|split; [apply count_of_ages_bounds|split; reflexivity]].
  unfold calculate_batch_average_age. now rewrite batch_loop_spec.
Qed.

End AverageAge.

(** ** Create, read, update, delete *)

Section Crud.

Lemma read_all_ids (st : Store) :
  map id (read_all_patients None st) = map Some (ids st).
Proof.
  unfold read_all_patients, ids. cbn [connect bind].
  now rewrite !map_map.
Qed.

Lemma NoDup_map_Some (l : list Z) : NoDup l -> NoDup (map Some l).
Proof.
  induction 1 as [|i l Hi _ IH]; cbn; constructor; [|exact IH].
  rewrite in_map_iff. intros (j & [= ->] & Hj). contradiction.
Qed.

(** Running the calls appends the created records to what the table
    held, and keeps the table well formed. *)
Lemma create_all_appends (calls : list call) (st : Store) :
  wf st ->
  read_all_patients None (snd (create_all calls st))
  = read_all_patients None st ++ created calls (fst (create_all calls st))
  /\ wf (snd (create_all calls st)).
Proof.
  revert st. induction calls as [|[io p] calls IH]; intros st Hwf.
  - cbn. now rewrite app_nil_r.
  - cbn [create_all].
    pose proof (create_patient_wf io p st Hwf) as Hwf'.
    destruct (create_patient_cases io p st)
      as [E|(n & a & d & Hn & Ha & Hd & _ & E)];
      rewrite E in *; cbn [snd] in Hwf'; destruct (IH _ Hwf') as [IHr IHw];
      destruct (create_all calls _) as [rs st''] eqn:Erun;
      cbn [fst snd created] in *.
    + split; [exact IHr|exact IHw].
    + split; [|exact IHw]. rewrite IHr.
      unfold read_all_patients. cbn [connect bind rows].
      rewrite map_app, <- app_assoc. cbn [map app Patient_of_row].
      unfold Patient_of_row at 2. cbn [row_id row_name row_age row_disease].
      now rewrite Hn, Ha, Hd.
Qed.

Lemma create_all_ignores_id (i : option Z) (calls : list call) (st : Store) :
  create_all (map (with_id i) calls) st = create_all calls st.
Proof.
  revert st. induction calls as [|[io p] calls IH]; intros st; [reflexivity|].
  cbn [map create_all with_id fst snd].
  replace (create_patient io (mkPatient i (name p) (age p) (disease p)) st)
    with (create_patient io p st) by reflexivity.
  destruct (create_patient io p st) as [r st']. now rewrite IH.
Qed.

(** Whether a call succeeds, the id it returns and where it leaves the id
    counter. *)
Lemma create_patient_assigned (io : fault) (p : Patient) (st : Store) :
  wf st ->
  fst (create_patient io p st)
  = (if session.succeeds (io, p) (sequence st)
     then Some (sequence st + 1) else None)
  /\ sequence (snd (create_patient io p st))
     = (if session.succeeds (io, p) (sequence st)
        then sequence st + 1 else sequence st).
Proof.
  intros Hwf. unfold create_patient, insert, session.succeeds.
  cbn [fst snd]. destruct io as [e|]; [now split|]. cbn [connect bind].
  unfold session.all_text.
  destruct (name p) as [|n]; [now split|].
  destruct (age p) as [|a]; [now split|].
  destruct (disease p) as [|d]; [now split|].
  cbn [not_null bind session.is_text andb].
  rewrite (largest_rowid_wf _ Hwf).
  destruct (Z.leb_spec max_rowid (sequence st)) as [Hfull|Hroom];
    destruct (Z.ltb_spec (sequence st) max_rowid); try lia; now split.
Qed.

Lemma create_all_assigned (calls : list call) (st : Store) :
  wf st -> fst (create_all calls st) = session.assigned calls (sequence st).
Proof.
  revert st. induction calls as [|[io p] calls IH]; intros st Hwf;
    [reflexivity|].
  cbn [create_all session.assigned].
  pose proof (create_patient_wf io p st Hwf) as Hwf'.
  destruct (create_patient_assigned io p st Hwf) as [Hr Hs].
  specialize (IH _ Hwf').
  destruct (create_patient io p st) as [r st']. cbn [fst snd] in *.
  destruct (create_all calls st') as [rs st'']. cbn [fst] in *.
  rewrite Hr, IH, Hs.
  now destruct (session.succeeds (io, p) (sequence st)).
Qed.

(** C5. In any sequence of [create_patient] calls on the empty table, a
    call succeeds exactly when the storage layer works, its three fields
    hold text and an id is left, and the calls that succeed return 1, 2, 3
    and so on in their order.  [read_all_patients] then returns exactly the
    records of the calls that succeeded, in the order of the calls, each
    under the id its call returned; these ids are pairwise distinct and do
    not depend on the [id] field the caller passed.  On the empty table it
    returns the empty list. *)
Theorem read_all_after_creates (calls : list call) (i : option Z) :
  fst (create_all calls empty) = session.assigned calls 0
  /\ read_all_patients None (snd (create_all calls empty))
     = created calls (fst (create_all calls empty))
  /\ NoDup (map id (read_all_patients None (snd (create_all calls empty))))
  /\ create_all (map (with_id i) calls) empty = create_all calls empty
  /\ (forall io, read_all_patients io empty = []).
Proof.
  destruct (create_all_appends calls empty wf_empty) as [Hread Hwf].
  split; [exact (create_all_assigned calls empty wf_empty)|].
  split; [exact Hread|]. split; [|split; [|now intros [e|]]].
  - rewrite read_all_ids. apply NoDup_map_Some, wf_NoDup, Hwf.
  - apply create_all_ignores_id.
Qed.

(** Five calls, of which the third meets a storage failure and the fourth
    passes no age: the three others are given the ids 1, 2, 3 and are read
    back in insertion order, the first one under the id the table gave it
    and not the 77 its caller passed. *)
Lemma read_all_after_creates_witness :
  let calls :=
    [(None, mkPatient (Some 77) (PyStr "A") (PyStr "45") (PyStr "x"));
     (None, mkPatient None (PyStr "B") (PyStr "32") (PyStr "y"));
     (Some sqlite3_Error, mkPatient None (PyStr "C") (PyStr "1") (PyStr "w"));
     (None, mkPatient None (PyStr "D") PyNone (PyStr "v"));
     (None, mkPatient None (PyStr "E") (PyStr "60") (PyStr "z"))]%string in
  fst (create_all calls empty) = [Some 1; Some 2; None; None; Some 3]
  /\ read_all_patients None (snd (create_all calls empty))
     = [mkPatient (Some 1) (PyStr "A") (PyStr "45") (PyStr "x");
        mkPatient (Some 2) (PyStr "B") (PyStr "32") (PyStr "y");
        mkPatient (Some 3) (PyStr "E") (PyStr "60") (PyStr "z")]%string.
Proof.
  intros calls.
  destruct (read_all_after_creates calls None) as (Hids & Hread & _).
  rewrite Hread, Hids. split; reflexivity.
Defined.

Lemma filter_absent (i : Z) (l : list Row) :
  ~ In i (map row_id l) ->
  filter (id_is i) l = []
  /\ filter (fun r => negb (id_is i r)) l = l
  /\ find (id_is i) l = None.
Proof.
  induction l as [|r l IH]; intros Hnot; [auto|].
  cbn [map In] in Hnot.
  assert (E : id_is i r = false).
  { unfold id_is. destruct (Z.eqb_spec (row_id r) i); [tauto|reflexivity]. }
  cbn [filter find]. rewrite E. cbn [negb].
  destruct IH as (-> & -> & ->); [tauto|]. auto.
Qed.

Lemma rowcount_absent (i : Z) (st : Store) :
  ~ In i (ids st) -> rowcount i st = 0.
Proof.
  intros H. unfold rowcount.
  now destruct (filter_absent i (rows st) H) as (-> & _).
Qed.

Lemma delete_absent (io : fault) (i : Z) (st : Store) :
  ~ In i (ids st) -> delete_patient io i st = (0, st).
Proof.
  intros H. unfold delete_patient. destruct io as [e|]; [reflexivity|].
  cbn [connect bind delete]. rewrite (rowcount_absent _ _ H).
  destruct (filter_absent i (rows st) H) as (_ & -> & _).
  now rewrite store_eta.
Qed.

Lemma update_absent (io : fault) (p : Patient) (st : Store) :
  (forall i, id p = Some i -> ~ In i (ids st)) ->
  update_patient io p st = (0, st).
Proof.
  intros H. unfold update_patient. destruct io as [e|]; [reflexivity|].
  cbn [connect bind]. unfold update.
  destruct (id p) as [i|]; [|reflexivity].
  now rewrite (rowcount_absent i st (H i eq_refl)).
Qed.

Lemma read_absent (io : fault) (i : Z) (st : Store) :
  ~ In i (ids st) -> read_patient_by_id io i st = None.
Proof.
  intros H. unfold read_patient_by_id. destruct io as [e|]; [reflexivity|].
  cbn [connect bind]. unfold select_by_id.
  now destruct (filter_absent i (rows st) H) as (_ & _ & ->).
Qed.

Lemma rowcount_present (i : Z) (l : list Row) :
  NoDup (map row_id l) -> In i (map row_id l) ->
  List.length (filter (id_is i) l) = 1%nat.
Proof.
  induction l as [|r l IH]; intros Hnd Hin; [destruct Hin|].
  cbn [map] in Hnd, Hin. inversion Hnd as [|? ? Hr Hl]; subst.
  cbn [filter]. unfold id_is at 1.
  destruct (Z.eqb_spec (row_id r) i) as [<-|Hne].
  - destruct (filter_absent (row_id r) l Hr) as (-> & _). reflexivity.
  - apply IH; [exact Hl|]. destruct Hin; [contradiction|assumption].
Qed.

Lemma ids_after_delete (i : Z) (st : Store) :
  ~ In i (ids (snd (delete i st))).
Proof.
  unfold ids. cbn [delete snd rows]. rewrite ids_filter.
  intros H. apply filter_In in H. destruct H as [_ H].
  now rewrite Z.eqb_refl in H.
Qed.

(** C6. [update_patient] with an id that no row of the table has ([None]
    included) returns 0 and leaves the table as it was: no row changed, no
    row added. *)
Theorem update_absent_id (io : fault) (patient : Patient) (st : Store) :
  (forall i, id patient = Some i -> ~ In i (ids st)) ->
  update_patient io patient st = (0, st).
Proof. apply update_absent. Qed.

Lemma update_absent_id_witness :
  ~ In 999 (ids test_store)
  /\ update_patient None
       (mkPatient (Some 999) (PyStr "X") (PyStr "7") (PyStr "flu"))
       test_store
     = (0, test_store).
Proof.
  assert (Habs : ~ In 999 (ids test_store))
    by (vm_compute; intuition discriminate).
  split; [exact Habs|].
  apply (update_absent_id None _ test_store).
  intros i [= <-]. exact Habs.
Defined.

(** C7. On a table whose ids are pairwise distinct (the primary key) and
    an id that a row has: [delete_patient] returns 1; afterwards
    [read_patient_by_id] on that id returns [None], and a second
    [delete_patient] returns 0 and changes nothing. *)
Theorem delete_twice (i : Z) (st : Store) :
  NoDup (ids st) -> In i (ids st) ->
  let st' := snd (delete_patient None i st) in
  fst (delete_patient None i st) = 1
  /\ (forall io, read_patient_by_id io i st' = None)
  /\ (forall io, delete_patient io i st' = (0, st')).
Proof.
  intros Hnd Hin st'.
  assert (Habs : ~ In i (ids st')) by apply ids_after_delete.
  split; [|split].
  - cbn. unfold rowcount. now rewrite (rowcount_present i _ Hnd Hin).
  - intros io. now apply read_absent.
  - intros io. now apply delete_absent.
Qed.

Lemma delete_twice_witness :
  NoDup (ids test_store) /\ In 2 (ids test_store)
  /\ fst (delete_patient None 2 test_store) = 1
  /\ read_patient_by_id None 2 (snd (delete_patient None 2 test_store)) = None
  /\ fst (delete_patient None 2 (snd (delete_patient None 2 test_store))) = 0.
Proof.
  assert (Hnd : NoDup (ids test_store)).
  { apply wf_NoDup. unfold test_store.
    apply (create_all_appends _ empty wf_empty). }
  assert (Hin : In 2 (ids test_store)) by (vm_compute; tauto).
  destruct (delete_twice 2 test_store Hnd Hin) as (H1 & H2 & H3).
  split; [exact Hnd|]. split; [exact Hin|].
  split; [exact H1|]. split; [exact (H2 None)|].
  now rewrite (H3 None).
Defined.

(** C8. When the storage layer raises, [update_patient] and
    [delete_patient] return 0 and [read_patient_by_id] returns [None], on
    any table; these are the values they return when the storage layer
    works and no row has the id. *)
Theorem failure_looks_like_absence
  (e : exn) (patient : Patient) (i : Z) (st absent : Store) :
  id patient = Some i -> ~ In i (ids absent) ->
  (update_patient (Some e) patient st = (0, st)
   /\ update_patient None patient absent = (0, absent))
  /\ (delete_patient (Some e) i st = (0, st)
      /\ delete_patient None i absent = (0, absent))
  /\ (read_patient_by_id (Some e) i st = None
      /\ read_patient_by_id None i absent = None).
Proof.
  intros Hid Habs. split; [|split]; (split; [reflexivity|]).
  - apply update_absent. intros j Hj. congruence.
  - now apply delete_absent.
  - now apply read_absent.
Qed.

Lemma failure_looks_like_absence_witness :
  ~ In 2 (ids empty)
  /\ fst (update_patient (Some sqlite3_Error)
         (mkPatient (Some 2) (PyStr "X") (PyStr "7") (PyStr "flu"))
         test_store) = 0
  /\ fst (delete_patient (Some sqlite3_Error) 2 test_store) = 0
  /\ read_patient_by_id (Some sqlite3_Error) 2 test_store = None
  /\ read_patient_by_id None 2 empty = None.
Proof.
  pose proof (failure_looks_like_absence sqlite3_Error
                (mkPatient (Some 2) (PyStr "X") (PyStr "7") (PyStr "flu"))
                2 test_store empty eq_refl (fun H : In 2 (ids empty) => H))
    as ((Hu & _) & (Hd & _) & (Hr & Hr')).
  rewrite Hu, Hd. split; [exact (fun H : In 2 (ids empty) => H)|auto].
Defined.

End Crud.

(** ** The average-age response *)

Section AverageAgeResponse.
Import crud_operations.

Lemma count_valid_spec (ps : list Patient) :
  count_valid ps = Returns (count_of_ages ps).
Proof.
  induction ps as [|p ps IH]; [reflexivity|].
  cbn [count_valid]. rewrite IH, count_of_ages_cons.
  unfold is_valid_age, parses.
  destruct (int (age p)) as [a|e] eqn:E; [reflexivity|].
  now rewrite (int_raises _ _ E).
Qed.

(** What the handler answers when both reads of the table work. *)
Lemma get_average_age_cases (st : Store) :
  let ps := read_all_patients None st in
  get_average_age None None st
  = match average ps with
    | Returns None =>
        mkResponse [("error", JStr "No valid ages found");
                    ("patient_count", JInt 0)]%string 404
    | Returns (Some x) =>
        match round x 2 with
        | Returns r =>
            mkResponse [("average_age", JFloat r);
                        ("patient_count", JInt (count_of_ages ps));
                        ("total_patients",
                          JInt (Z.of_nat (List.length ps)))]%string 200
        | Raises e =>
            mkResponse [("error", JStrOf e);
                        ("patient_count", JInt 0)]%string 500
        end
    | Raises e =>
        mkResponse [("error", JStrOf e); ("patient_count", JInt 0)]%string 500
    end.
Proof.
  intros ps. unfold get_average_age.
  rewrite calculate_average_ages_spec. fold ps.
  destruct (average ps) as [[x|]|e]; cbn [bind]; [|reflexivity|reflexivity].
  rewrite count_valid_spec. cbn [bind].
  destruct (round x 2); reflexivity.
Qed.

(** C10. In a 200 response of the average-age handler whose second read
    of the table works: the first read worked too,
    [patient_count] is the number of rows whose age parses, it is positive,
    [total_patients] is the number of rows, and [average_age] is
    [round(x, 2)] of the quotient [x] of the sum of the parseable ages by
    [patient_count]. *)
Theorem average_age_response
  (io1 : fault) (st : Store) (average_age : float)
  (patient_count total_patients : Z) :
  get_average_age io1 None st
  = mkResponse [("average_age", JFloat average_age);
                ("patient_count", JInt patient_count);
                ("total_patients", JInt total_patients)]%string 200 ->
  let ps := read_all_patients None st in
  io1 = None
  /\ patient_count = count_of_ages ps
  /\ 0 < patient_count
  /\ total_patients = Z.of_nat (List.length (rows st))
  /\ exists x,
      int_true_divide (sum_of_ages ps) patient_count = Returns x
      /\ calculate_average_ages None st = Returns (Some x)
      /\ round x 2 = Returns average_age.
Proof.
  intros H ps. destruct io1 as [e|].
  { exfalso.
    assert (E : get_average_age (Some e) None st
                = mkResponse [("error", JStr "No valid ages found");
                              ("patient_count", JInt 0)]%string 404)
      by reflexivity.
    rewrite E in H. discriminate H. }
  split; [reflexivity|].
  rewrite get_average_age_cases in H. fold ps in H.
  rewrite calculate_average_ages_spec. fold ps.
  unfold average in *.
  destruct (Z.eqb_spec (count_of_ages ps) 0) as [|Hc]; [discriminate|].
  destruct (int_true_divide _ _) as [x|e] eqn:Ediv; cbn [bind] in *;
    [|discriminate].
  destruct (round x 2) as [r|e] eqn:Er; [|discriminate].
  injection H as <- <- <-.
  pose proof (count_of_ages_bounds ps).
  split; [reflexivity|]. split; [lia|]. split.
  - subst ps. unfold read_all_patients. cbn [connect bind].
    now rewrite length_map.
  - exists x. auto.
Qed.

Lemma average_age_response_witness :
  get_average_age None None test_store
  = mkResponse
      [("average_age", JFloat (S754_finite false 6427481093187830 (-47)));
       ("patient_count", JInt 3);
       ("total_patients", JInt 4)]%string 200
  /\ 3 = count_of_ages (read_all_patients None test_store)
  /\ 4 = Z.of_nat (List.length (rows test_store))
  /\ int_true_divide 4567 100
     = Returns (S754_finite false 6427481093187830 (-47)).
Proof.
  assert (H : get_average_age None None test_store
              = mkResponse
                  [("average_age",
                     JFloat (S754_finite false 6427481093187830 (-47)));
                   ("patient_count", JInt 3);
                   ("total_patients", JInt 4)]%string 200)
    by (vm_compute; reflexivity).
  destruct (average_age_response None test_store _ _ _ H)
    as (_ & Hc & _ & Ht & _).
  split; [exact H|]. split; [exact Hc|]. split; [exact Ht|].
  vm_compute. reflexivity.
Defined.

(** The statement of C10 needs the second read: when only that read
    fails, on the table of four records, three of them with an age that
    parses, the handler answers 200 with the average 45.67 of these three
    ages beside a [patient_count] of 0 and a [total_patients] of 0. *)
Lemma average_age_response_counterexample :
  get_average_age None (Some sqlite3_Error) test_store
  = mkResponse
      [("average_age", JFloat (S754_finite false 6427481093187830 (-47)));
       ("patient_count", JInt 0);
       ("total_patients", JInt 0)]%string 200
  /\ count_of_ages (read_all_patients None test_store) = 3
  /\ Z.of_nat (List.length (rows test_store)) = 4
  /\ int_true_divide 4567 100
     = Returns (S754_finite false 6427481093187830 (-47)).
Proof.
  split; [vm_compute; reflexivity|].
  split; [reflexivity|]. split; [reflexivity|]. vm_compute. reflexivity.
Qed.

End AverageAgeResponse.

(** * Further properties of the record store *)

Import session.

Section StoreRoundTrips.

Lemma find_app {A : Type} (f : A -> bool) (l1 l2 : list A) :
  find f (l1 ++ l2)
  = match find f l1 with
    | Some x => Some x
    | None => find f l2
    end.
Proof.
  induction l1 as [|x l1 IH]; [reflexivity|]. cbn [app find].
  now destruct (f x).
Qed.

Lemma find_present (i : Z) (l : list Row) :
  In i (map row_id l) ->
  exists r, find (id_is i) l = Some r /\ row_id r = i /\ In r l.
Proof.
  induction l as [|r l IH]; intros Hin; [destruct Hin|].
  cbn [find]. unfold id_is at 1.
  destruct (Z.eqb_spec (row_id r) i) as [E|Hne].
  - exists r. cbn. auto.
  - destruct Hin as [E|Hin]; [contradiction|].
    destruct (IH Hin) as (r' & Hf & Hid & Hr'). exists r'. cbn. auto.
Qed.

Lemma find_id_map (g : Row -> Row) (j : Z) (l : list Row) :
  (forall r, row_id (g r) = row_id r) ->
  find (id_is j) (map g l) = option_map g (find (id_is j) l).
Proof.
  intros Hg. induction l as [|r l IH]; [reflexivity|].
  cbn [map find]. unfold id_is at 1 3. rewrite Hg.
  now destruct (row_id r =? j).
Qed.

Lemma row_by_id (l : list Row) (r r' : Row) :
  NoDup (map row_id l) -> In r l -> In r' l -> row_id r' = row_id r -> r' = r.
Proof.
  induction l as [|x l IH]; intros Hnd Hr Hr' E; [destruct Hr|].
  cbn [map] in Hnd. inversion Hnd as [|? ? Hx Hl]; subst.
  destruct Hr as [<-|Hr], Hr' as [<-|Hr']; [reflexivity| | |now apply IH].
  - exfalso. apply Hx. rewrite <- E. now apply in_map.
  - exfalso. apply Hx. rewrite E. now apply in_map.
Qed.

Lemma wf_ids_le (st : Store) (i : Z) :
  wf st -> In i (ids st) -> 0 < i <= sequence st.
Proof.
  intros (Hinc & Hall & _) Hin. rewrite Forall_forall in Hall.
  pose proof (increasing_above _ _ Hinc) as Hpos.
  rewrite Forall_forall in Hpos. split; [now apply Hpos|now apply Hall].
Qed.

Lemma create_read_back (io : fault) (p : Patient) (st : Store) (i : Z) :
  wf st ->
  fst (create_patient io p st) = Some i ->
  let st' := snd (create_patient io p st) in
  read_patient_by_id None i st' = Some (stored i p)
  /\ read_patient_by_id None i st = None
  /\ (forall j, j <> i ->
        read_patient_by_id None j st' = read_patient_by_id None j st)
  /\ Forall (fun j => j < i) (ids st).
Proof.
  intros Hwf Hi st'. subst st'.
  destruct (create_patient_cases io p st)
    as [E|(n & a & d & Hn & Ha & Hd & _ & E)]; rewrite E in *;
    [discriminate|].
  cbn [fst snd] in *. injection Hi as <-.
  rewrite (largest_rowid_wf _ Hwf).
  assert (Hlt : Forall (fun j => j < sequence st + 1) (ids st)).
  { rewrite Forall_forall. intros j Hj.
    pose proof (wf_ids_le _ _ Hwf Hj). lia. }
  assert (Habs : ~ In (sequence st + 1) (ids st)).
  { intros Hin. rewrite Forall_forall in Hlt. specialize (Hlt _ Hin). lia. }
  unfold read_patient_by_id, select_by_id. cbn [connect bind rows].
  split; [|split; [|split; [|exact Hlt]]].
  - rewrite find_app.
    destruct (filter_absent _ _ Habs) as (_ & _ & ->).
    cbn [find]. unfold id_is. cbn [row_id]. rewrite Z.eqb_refl.
    unfold stored, Patient_of_row. cbn. now rewrite Hn, Ha, Hd.
  - now destruct (filter_absent _ _ Habs) as (_ & _ & ->).
  - intros j Hj. rewrite find_app.
    destruct (find (id_is j) (rows st)); [reflexivity|].
    cbn [find]. unfold id_is. cbn [row_id].
    destruct (Z.eqb_spec (sequence st + 1) j); [congruence|reflexivity].
Qed.

(** X1. A successful [create_patient] on a well-formed table returns an id
    that no row had and that is above every id of the table; reading that id
    afterwards returns the caller's three fields under it, and every other id
    reads as before. *)
Theorem create_then_read (io : fault) (p : Patient) (st : Store) (i : Z) :
  wf st ->
  fst (create_patient io p st) = Some i ->
  let st' := snd (create_patient io p st) in
  read_patient_by_id None i st' = Some (stored i p)
  /\ read_patient_by_id None i st = None
  /\ (forall j, j <> i ->
        read_patient_by_id None j st' = read_patient_by_id None j st)
  /\ Forall (fun j => j < i) (ids st).
Proof. apply create_read_back. Qed.

Lemma create_then_read_witness :
  wf test_store
  /\ fst (create_patient None
            (mkPatient (Some 2) (PyStr "Z") (PyStr "9") (PyStr "flu"))
            test_store) = Some 5
  /\ read_patient_by_id None 5
       (snd (create_patient None
               (mkPatient (Some 2) (PyStr "Z") (PyStr "9") (PyStr "flu"))
               test_store))
     = Some (mkPatient (Some 5) (PyStr "Z") (PyStr "9") (PyStr "flu")).
Proof.
  assert (Hwf : wf test_store)
    by apply (create_all_appends _ empty wf_empty).
  assert (Hi : fst (create_patient None
                      (mkPatient (Some 2) (PyStr "Z") (PyStr "9")
                                 (PyStr "flu")) test_store) = Some 5)
    by reflexivity.
  split; [exact Hwf|]. split; [exact Hi|].
  apply (create_then_read None _ test_store 5 Hwf Hi).
Defined.

Lemma update_read_back (i : Z) (n a d : string) (st : Store) :
  NoDup (ids st) -> In i (ids st) ->
  let p := mkPatient (Some i) (PyStr n) (PyStr a) (PyStr d) in
  let st' := snd (update_patient None p st) in
  fst (update_patient None p st) = 1
  /\ read_patient_by_id None i st' = Some p
  /\ (forall j, j <> i ->
        read_patient_by_id None j st' = read_patient_by_id None j st)
  /\ ids st' = ids st
  /\ sequence st' = sequence st.
Proof.
  intros Hnd Hin p st'. subst p st'.
  unfold update_patient, update. cbn [connect bind id name age disease].
  assert (Hc : rowcount i st = 1).
  { unfold rowcount. now rewrite (rowcount_present i _ Hnd Hin). }
  rewrite Hc. cbn [Z.eqb not_null bind fst snd].
  set (g := fun r => if id_is i r then mkRow (row_id r) n a d else r).
  assert (Hg : forall r, row_id (g r) = row_id r).
  { intros r. unfold g. now destruct (id_is i r). }
  unfold read_patient_by_id, select_by_id. cbn [connect bind rows].
  split; [reflexivity|]. split; [|split; [|split; [|reflexivity]]].
  - rewrite (find_id_map g i _ Hg).
    destruct (find_present i (rows st) Hin) as (r & -> & Hid & _).
    cbn [option_map]. unfold g, id_is. rewrite Hid, Z.eqb_refl.
    reflexivity.
  - intros j Hj. rewrite (find_id_map g j _ Hg).
    destruct (find (id_is j) (rows st)) as [r|] eqn:E; [|reflexivity].
    apply find_some in E. destruct E as [_ E]. unfold id_is in E.
    cbn [option_map]. unfold g, id_is.
    destruct (Z.eqb_spec (row_id r) i); [lia|reflexivity].
  - unfold ids. cbn [rows]. rewrite map_map. apply map_ext. exact Hg.
Qed.

(** X2. [update_patient] with text in the three fields, on an id that
    exactly one row has: it returns 1, the id then reads as the new record,
    every other id reads as before, and the ids and their order are kept. *)
Theorem update_then_read (i : Z) (n a d : string) (st : Store) :
  NoDup (ids st) -> In i (ids st) ->
  let p := mkPatient (Some i) (PyStr n) (PyStr a) (PyStr d) in
  let st' := snd (update_patient None p st) in
  fst (update_patient None p st) = 1
  /\ read_patient_by_id None i st' = Some p
  /\ (forall j, j <> i ->
        read_patient_by_id None j st' = read_patient_by_id None j st)
  /\ ids st' = ids st
  /\ sequence st' = sequence st.
Proof. apply update_read_back. Qed.

Lemma update_then_read_witness :
  NoDup (ids test_store) /\ In 2 (ids test_store)
  /\ read_patient_by_id None 2
       (snd (update_patient None
               (mkPatient (Some 2) (PyStr "J") (PyStr "33") (PyStr "flu"))
               test_store))
     = Some (mkPatient (Some 2) (PyStr "J") (PyStr "33") (PyStr "flu")).
Proof.
  assert (Hnd : NoDup (ids test_store)).
  { apply wf_NoDup. apply (create_all_appends _ empty wf_empty). }
  assert (Hin : In 2 (ids test_store)) by (vm_compute; tauto).
  split; [exact Hnd|]. split; [exact Hin|].
  apply (update_then_read 2 "J" "33" "flu" test_store Hnd Hin).
Defined.

(** X3. A record in which [name], [age] or [disease] is [None] is never
    written: [create_patient] returns [None] and [update_patient] returns 0,
    whether or not a row has the id, and the table is unchanged. *)
Theorem null_field_rejected (io : fault) (p : Patient) (st : Store) :
  all_text p = false ->
  create_patient io p st = (None, st) /\ update_patient io p st = (0, st).
Proof.
  intros Hnull. unfold create_patient, update_patient, insert, update.
  destruct io as [e|]; [split; reflexivity|]. cbn [connect bind].
  unfold all_text in Hnull.
  destruct (name p) as [|n], (age p) as [|a], (disease p) as [|d];
    try discriminate Hnull; cbn [not_null bind];
    (split; [reflexivity|]);
    (destruct (id p) as [i|]; [|reflexivity]);
    now destruct (rowcount i st =? 0).
Qed.

Lemma null_field_rejected_witness :
  all_text (mkPatient (Some 2) (PyStr "J") PyNone (PyStr "flu")) = false
  /\ update_patient None (mkPatient (Some 2) (PyStr "J") PyNone (PyStr "flu"))
       test_store = (0, test_store).
Proof.
  split; [reflexivity|].
  apply (null_field_rejected None _ test_store). reflexivity.
Defined.

Lemma find_after_delete (i j : Z) (l : list Row) :
  j <> i ->
  find (id_is j) (filter (fun r => negb (id_is i r)) l) = find (id_is j) l.
Proof.
  intros Hj. induction l as [|r l IH]; [reflexivity|]. cbn [filter find].
  destruct (id_is i r) eqn:Ei, (id_is j r) eqn:Ej; cbn [negb find];
    rewrite ?Ej; try reflexivity; try exact IH.
  unfold id_is in Ei, Ej. lia.
Qed.

(** X4. [delete_patient] touches only the rows of the given id: every other
    id reads as before, the number it returns is the number of rows that
    went, and the id counter of the table is kept. *)
Theorem delete_keeps_the_rest (io : fault) (i : Z) (st : Store) :
  let st' := snd (delete_patient io i st) in
  (forall j, j <> i ->
     read_patient_by_id None j st' = read_patient_by_id None j st)
  /\ Z.of_nat (List.length (rows st))
     = Z.of_nat (List.length (rows st')) + fst (delete_patient io i st)
  /\ sequence st' = sequence st.
Proof.
  intros st'. subst st'. unfold delete_patient.
  destruct io as [e|]; cbn [connect bind delete fst snd rows sequence].
  - split; [reflexivity|]. split; [lia|reflexivity].
  - split; [|split; [|reflexivity]].
    + intros j Hj. unfold read_patient_by_id, select_by_id.
      cbn [connect bind rows]. now rewrite find_after_delete.
    + unfold rowcount.
      induction (rows st) as [|r l IH]; [reflexivity|].
      cbn [filter]. destruct (id_is i r); cbn [negb List.length]; lia.
Qed.

Lemma update_stored_values (r : Row) (st : Store) :
  NoDup (ids st) -> In r (rows st) ->
  update_patient None (Patient_of_row r) st = (1, st).
Proof.
  intros Hnd Hr. unfold update_patient, update, Patient_of_row.
  cbn [connect bind id name age disease].
  assert (Hin : In (row_id r) (ids st)) by now apply in_map.
  assert (Hc : rowcount (row_id r) st = 1).
  { unfold rowcount. now rewrite (rowcount_present _ _ Hnd Hin). }
  rewrite Hc. cbn [Z.eqb not_null bind].
  transitivity (1, {| rows := rows st; sequence := sequence st |});
    [|now rewrite store_eta].
  do 2 f_equal.
  transitivity (map (fun x => x) (rows st)); [|apply map_id].
  apply map_ext_in. intros r' Hr'. unfold id_is.
  destruct (Z.eqb_spec (row_id r') (row_id r)) as [E|_]; [|reflexivity].
  rewrite (row_by_id _ _ _ Hnd Hr Hr' E). now destruct r.
Qed.

(** X8. Writing back the values a row already has changes nothing:
    [update_patient] with the record read from a row returns 1 and leaves
    the table as it was. *)
Theorem update_with_stored_values (r : Row) (st : Store) :
  NoDup (ids st) -> In r (rows st) ->
  update_patient None (Patient_of_row r) st = (1, st).
Proof. apply update_stored_values. Qed.

Lemma update_with_stored_values_witness :
  NoDup (ids test_store)
  /\ In (mkRow 2 "Jane Smith" "32" "Diabetes") (rows test_store)
  /\ update_patient None
       (mkPatient (Some 2) (PyStr "Jane Smith") (PyStr "32")
                  (PyStr "Diabetes")) test_store
     = (1, test_store).
Proof.
  assert (Hnd : NoDup (ids test_store)).
  { apply wf_NoDup. apply (create_all_appends _ empty wf_empty). }
  assert (Hr : In (mkRow 2 "Jane Smith" "32" "Diabetes") (rows test_store))
    by (vm_compute; tauto).
  split; [exact Hnd|]. split; [exact Hr|].
  apply (update_with_stored_values _ test_store Hnd Hr).
Defined.

End StoreRoundTrips.

(** * Invariants of the table under any sequence of writes *)

Section Sessions.
Import db_services_seed.

Lemma serve_wf (r : request) (st : Store) : wf st -> wf (serve r st).
Proof.
  destruct r; cbn [serve].
  - apply create_patient_wf.
  - apply update_patient_wf.
  - apply delete_patient_wf.
Qed.

Lemma run_wf (rs : list request) (st : Store) : wf st -> wf (run rs st).
Proof.
  revert st. induction rs as [|r rs IH]; intros st Hwf; [exact Hwf|].
  apply IH, serve_wf, Hwf.
Qed.

Lemma serve_sequence (r : request) (st : Store) :
  wf st -> sequence st <= sequence (serve r st).
Proof.
  intros Hwf. destruct r as [io p|io p|io i]; cbn [serve].
  - destruct (create_patient_cases io p st)
      as [->|(n & a & d & _ & _ & _ & _ & ->)]; cbn [snd sequence]; [lia|].
    rewrite (largest_rowid_wf _ Hwf). lia.
  - unfold update_patient. destruct io as [e|]; cbn [connect bind snd]; [lia|].
    destruct (update _ _ _ _ st) as [[k st']|e] eqn:E; cbn [snd]; [|lia].
    destruct (update_ids _ _ _ _ _ _ _ E) as [_ ->]. lia.
  - unfold delete_patient. destruct io as [e|]; cbn; lia.
Qed.

Lemma run_sequence (rs : list request) (st : Store) :
  wf st -> sequence st <= sequence (run rs st).
Proof.
  revert st. induction rs as [|r rs IH]; intros st Hwf; cbn [run fold_left];
    [lia|].
  pose proof (serve_sequence r st Hwf).
  pose proof (IH _ (serve_wf r st Hwf)). unfold run in *. lia.
Qed.

(** X5. Whatever calls of [create_patient], [update_patient] and
    [delete_patient] are made on the empty table, and whatever the storage
    layer does during each, the ids of the table stay pairwise distinct,
    positive, in increasing order along the scan, and at most the id
    counter. *)
Theorem table_invariant (rs : list request) :
  let st := run rs empty in
  NoDup (ids st)
  /\ increasing 0 (ids st)
  /\ Forall (fun i => 0 < i <= sequence st) (ids st).
Proof.
  intros st. assert (Hwf : wf st) by apply run_wf, wf_empty.
  split; [now apply wf_NoDup|]. split; [apply Hwf|].
  rewrite Forall_forall. intros i Hi. now apply wf_ids_le.
Qed.

(** X6. An id that a row of the table has is never returned by a later
    [create_patient], whatever calls come in between: the deleted ids are
    not used again. *)
Theorem ids_never_reused
  (st : Store) (i : Z) (rs : list request) (io : fault) (p : Patient) (j : Z) :
  wf st -> In i (ids st) ->
  fst (create_patient io p (run rs st)) = Some j ->
  i < j.
Proof.
  intros Hwf Hin Hj.
  pose proof (wf_ids_le _ _ Hwf Hin) as Hi.
  pose proof (run_sequence rs st Hwf) as Hseq.
  pose proof (run_wf rs st Hwf) as Hwf'.
  destruct (create_patient_cases io p (run rs st))
    as [E|(n & a & d & _ & _ & _ & _ & E)]; rewrite E in Hj;
    [discriminate|].
  cbn [fst] in Hj. injection Hj as <-.
  rewrite (largest_rowid_wf _ Hwf'). lia.
Qed.

Lemma ids_never_reused_witness :
  wf test_store /\ In 4 (ids test_store)
  /\ fst (create_patient None
            (mkPatient None (PyStr "Z") (PyStr "9") (PyStr "flu"))
            (run [Delete None 4; Delete None 3] test_store)) = Some 5
  /\ 4 < 5.
Proof.
  assert (Hwf : wf test_store)
    by apply (create_all_appends _ empty wf_empty).
  assert (Hin : In 4 (ids test_store)) by (vm_compute; tauto).
  assert (Hj : fst (create_patient None
                      (mkPatient None (PyStr "Z") (PyStr "9") (PyStr "flu"))
                      (run [Delete None 4; Delete None 3] test_store))
               = Some 5) by reflexivity.
  split; [exact Hwf|]. split; [exact Hin|]. split; [exact Hj|].
  apply (ids_never_reused test_store 4 _ None _ 5 Hwf Hin Hj).
Defined.

Lemma create_all_text (ps : list Patient) (st : Store) :
  wf st -> forallb all_text ps = true ->
  sequence st + Z.of_nat (List.length ps) <= max_rowid ->
  fst (create_all (map (pair None) ps) st)
  = map Some (after (sequence st) (List.length ps))
  /\ sequence (snd (create_all (map (pair None) ps) st))
     = sequence st + Z.of_nat (List.length ps).
Proof.
  revert st. induction ps as [|p ps IH]; intros st Hwf Htext Hroom.
  - cbn. split; [reflexivity|lia].
  - cbn [forallb] in Htext. apply andb_true_iff in Htext.
    destruct Htext as [Hp Hps]. cbn [List.length] in Hroom.
    cbn [map create_all List.length after].
    pose proof (create_patient_wf None p st Hwf) as Hwf'.
    destruct (create_patient_cases None p st)
      as [E|(n & a & d & Hn & Ha & Hd & _ & E)].
    + exfalso. unfold create_patient, insert in E.
      cbn [connect bind] in E. unfold all_text in Hp.
      destruct (name p), (age p), (disease p); try discriminate Hp.
      cbn [not_null bind] in E. rewrite (largest_rowid_wf _ Hwf) in E.
      destruct (Z.leb_spec max_rowid (sequence st)); [lia|discriminate].
    + rewrite E in *. cbn [snd] in Hwf'.
      rewrite (largest_rowid_wf _ Hwf) in *.
      destruct (IH _ Hwf' Hps) as [IHr IHs]; [cbn [sequence]; lia|].
      cbn [sequence] in IHr, IHs.
      destruct (create_all (map (pair None) ps) _) as [rs st''].
      cbn [fst snd] in *. rewrite IHr, IHs. cbn [map].
      split; [reflexivity|lia].
Qed.

(** X7. On a well-formed table with ids to spare, a run of
    [create_patient] calls with text in every field and the storage layer
    working returns consecutive ids, starting one above the id counter, and
    appends the records in call order after the ones the table held. *)
Theorem creates_number_consecutively (ps : list Patient) (st : Store) :
  wf st -> forallb all_text ps = true ->
  sequence st + Z.of_nat (List.length ps) <= max_rowid ->
  let run := create_all (map (pair None) ps) st in
  fst run = map Some (after (sequence st) (List.length ps))
  /\ read_all_patients None (snd run)
     = read_all_patients None st
       ++ map (fun ip => stored (fst ip) (snd ip))
              (combine (after (sequence st) (List.length ps)) ps).
Proof.
  intros Hwf Htext Hroom run. subst run.
  destruct (create_all_text ps st Hwf Htext Hroom) as [Hr _].
  split; [exact Hr|].
  destruct (create_all_appends (map (pair None) ps) st Hwf) as [-> _].
  rewrite Hr. f_equal. clear.
  generalize (sequence st). induction ps as [|p ps IH]; intros n;
    [reflexivity|].
  cbn [map List.length after created combine fst snd]. now rewrite IH.
Qed.

Lemma creates_number_consecutively_witness :
  wf test_store
  /\ forallb all_text sample_patients = true
  /\ sequence test_store + Z.of_nat (List.length sample_patients)
     <= max_rowid
  /\ fst (create_all (map (pair None) sample_patients) test_store)
     = map Some [5; 6; 7; 8; 9; 10; 11; 12; 13; 14; 15; 16].
Proof.
  assert (Hwf : wf test_store)
    by apply (create_all_appends _ empty wf_empty).
  assert (Ht : forallb all_text sample_patients = true) by reflexivity.
  assert (Hroom : sequence test_store
                  + Z.of_nat (List.length sample_patients) <= max_rowid)
    by (vm_compute; discriminate).
  split; [exact Hwf|]. split; [exact Ht|]. split; [exact Hroom|].
  apply (creates_number_consecutively sample_patients test_store
           Hwf Ht Hroom).
Defined.

Lemma seed_loop_create_all (k : nat) (io : nat -> fault) (ps : list Patient)
  (st : Store) :
  seed_loop k io ps st
  = snd (create_all
           (map (fun kp => (io (fst kp), snd kp))
                (combine (seq k (List.length ps)) ps)) st).
Proof.
  revert k st. induction ps as [|p ps IH]; intros k st; [reflexivity|].
  cbn [seed_loop List.length seq combine map create_all fst snd].
  rewrite IH. destruct (create_patient (io k) p st) as [r st'].
  cbn [snd]. now destruct (create_all _ st').
Qed.

Lemma create_all_prefix (calls : list call) (st : Store) :
  exists added,
    rows (snd (create_all calls st)) = rows st ++ added
    /\ (List.length added <= List.length calls)%nat.
Proof.
  revert st. induction calls as [|[io p] calls IH]; intros st.
  - exists []. cbn. now rewrite app_nil_r.
  - cbn [create_all].
    destruct (create_patient_cases io p st)
      as [E|(n & a & d & _ & _ & _ & _ & E)]; rewrite E;
      match goal with |- context [create_all calls ?s] =>
        destruct (IH s) as (added & Hrows & Hlen);
        destruct (create_all calls s) as [rs st''] end;
      cbn [snd rows] in *.
    + exists added. split; [exact Hrows|]. cbn [List.length]. lia.
    + eexists (_ :: added). rewrite Hrows, <- app_assoc. cbn [app].
      split; [reflexivity|]. cbn [List.length]. lia.
Qed.

(** X14. [seed_data] only appends: whatever the storage layer does, the
    rows the table held stay first and unchanged, and at most 12 rows
    follow.  With the storage layer working, on a well-formed table with
    ids to spare, exactly the 12 sample records follow, under the next 12
    ids; nothing is checked against what the table holds, so a second run
    adds them again. *)
Theorem seed_data_appends (io : nat -> fault) (st : Store) :
  wf st -> sequence st + 12 <= max_rowid ->
  (exists added,
     rows (seed_data io st) = rows st ++ added
     /\ (List.length added <= 12)%nat)
  /\ read_all_patients None (seed_data (fun _ => None) st)
     = read_all_patients None st
       ++ map (fun ip => stored (fst ip) (snd ip))
              (combine (after (sequence st) 12) sample_patients)
  /\ List.length (rows (seed_data (fun _ => None)
                          (seed_data (fun _ => None) empty))) = 24%nat.
Proof.
  intros Hwf Hroom. unfold seed_data. rewrite !seed_loop_create_all.
  split; [|split; [|reflexivity]].
  - destruct (create_all_prefix
                (map (fun kp => (io (fst kp), snd kp))
                     (combine (seq 0 (List.length sample_patients))
                              sample_patients)) st)
      as (added & Hrows & Hlen).
    exists added. split; [exact Hrows|].
    rewrite length_map, length_combine, length_seq in Hlen.
    cbn in Hlen. exact Hlen.
  - match goal with
    | |- context [create_all ?calls st] =>
        change calls with (map (pair (@None exn)) sample_patients)
    end.
    destruct (create_all_text sample_patients st Hwf eq_refl) as [Hr _];
      [cbn [List.length sample_patients]; lia|].
    destruct (create_all_appends (map (pair None) sample_patients) st Hwf)
      as [-> _].
    rewrite Hr. reflexivity.
Qed.

Lemma seed_data_appends_witness :
  wf test_store /\ sequence test_store + 12 <= max_rowid
  /\ map id (read_all_patients None (seed_data (fun _ => None) test_store))
     = map Some [1; 2; 3; 4; 5; 6; 7; 8; 9; 10; 11; 12; 13; 14; 15; 16].
Proof.
  assert (Hwf : wf test_store)
    by apply (create_all_appends _ empty wf_empty).
  assert (Hroom : sequence test_store + 12 <= max_rowid)
    by (vm_compute; discriminate).
  split; [exact Hwf|]. split; [exact Hroom|].
  destruct (seed_data_appends (fun _ => None) test_store Hwf Hroom)
    as (_ & -> & _).
  reflexivity.
Defined.

End Sessions.

(** * Further properties of the average age *)

Section AverageAgeEdges.
Import crud_operations.

(** X9. A batch size that is not positive: on an empty read the result is
    [None]; otherwise 0 makes [range] raise [ValueError], and a negative
    size gives no batch at all, so the result is [None] even when ages
    parse. *)
Theorem nonpositive_batch_size (io : fault) (batch_size : Z) (st : Store) :
  batch_size <= 0 ->
  calculate_average_age io batch_size st
  = match read_all_patients io st with
    | [] => Returns None
    | _ :: _ => if batch_size =? 0 then Raises ValueError else Returns None
    end.
Proof.
  intros Hb. unfold calculate_average_age, range.
  destruct (read_all_patients io st) as [|p ps]; [reflexivity|].
  destruct (Z.eqb_spec batch_size 0) as [->|Hne]; [reflexivity|].
  destruct (Z.ltb_spec 0 batch_size) as [?|_]; [lia|].
  destruct (Z.ltb_spec (Z.of_nat (List.length (p :: ps))) 0) as [?|_];
    [lia|reflexivity].
Qed.

Lemma nonpositive_batch_size_witness :
  -1 <= 0
  /\ calculate_average_age None (-1) test_store = Returns None
  /\ calculate_average_age None 0 test_store = Raises ValueError.
Proof.
  assert (H1 : -1 <= 0) by lia. assert (H0 : 0 <= 0) by lia.
  split; [exact H1|]. split.
  - exact (nonpositive_batch_size None (-1) test_store H1).
  - exact (nonpositive_batch_size None 0 test_store H0).
Defined.

Lemma ages_permutation (ps qs : list Patient) :
  Permutation ps qs ->
  sum_of_ages ps = sum_of_ages qs /\ count_of_ages ps = count_of_ages qs.
Proof.
  induction 1 as [|p ps qs _ [IHs IHc]|p q ps|ps qs rs _ [IH1 IH2] _ [IH3 IH4]].
  - auto.
  - rewrite !sum_of_ages_cons, !count_of_ages_cons, IHs, IHc. auto.
  - rewrite !sum_of_ages_cons, !count_of_ages_cons. split; lia.
  - split; congruence.
Qed.

(** X11. For a batch size of at least one, the average does not depend on
    the order of the rows: two tables whose rows are a permutation of each
    other give the same outcome. *)
Theorem average_ignores_order (io : fault) (batch_size : Z) (st st' : Store) :
  1 <= batch_size ->
  Permutation (rows st) (rows st') ->
  calculate_average_age io batch_size st
  = calculate_average_age io batch_size st'.
Proof.
  intros Hb Hperm. rewrite !calculate_average_age_spec by exact Hb.
  unfold read_all_patients. destruct io as [e|]; [reflexivity|].
  cbn [connect bind]. unfold average.
  destruct (ages_permutation _ _ (Permutation_map Patient_of_row Hperm))
    as [-> ->].
  reflexivity.
Qed.

Lemma average_ignores_order_witness :
  1 <= 3
  /\ Permutation (rows test_store) (rev (rows test_store))
  /\ calculate_average_age None 3 test_store
     = calculate_average_age None 3
         {| rows := rev (rows test_store); sequence := 4 |}.
Proof.
  assert (Hb : 1 <= 3) by lia.
  assert (Hp : Permutation (rows test_store) (rev (rows test_store)))
    by apply Permutation_rev.
  split; [exact Hb|]. split; [exact Hp|].
  apply (average_ignores_order None 3 test_store
           {| rows := rev (rows test_store); sequence := 4 |} Hb Hp).
Defined.

(** X12. For a batch size of at least one, [calculate_average_age] ends in
    one of three ways: [None], exactly when no age parses; a float that is
    zero or finite, never an infinity or a NaN, and [+0.0] when the ages sum
    to 0; or [OverflowError], the only exception it lets out. *)
Theorem average_outcomes (io : fault) (batch_size : Z) (st : Store) :
  1 <= batch_size ->
  let ps := read_all_patients io st in
  match calculate_average_age io batch_size st with
  | Returns None => count_of_ages ps = 0
  | Returns (Some x) =>
      0 < count_of_ages ps
      /\ match x with
         | S754_zero _ | S754_finite _ _ _ => True
         | S754_infinity _ | S754_nan => False
         end
      /\ (sum_of_ages ps = 0 -> x = S754_zero false)
  | Raises e => 0 < count_of_ages ps /\ e = OverflowError
  end.
Proof.
  intros Hb ps. rewrite calculate_average_age_spec by exact Hb. fold ps.
  unfold average. pose proof (count_of_ages_bounds ps) as Hc.
  destruct (Z.eqb_spec (count_of_ages ps) 0) as [E|Hne]; [exact E|].
  unfold int_true_divide.
  destruct (Z.eqb_spec (count_of_ages ps) 0) as [?|_]; [contradiction|].
  destruct (SFdiv 53 1024 _ _) as [s|s| |s m e] eqn:Ediv; cbn [bind].
  - split; [lia|]. split; [exact I|]. intros Hz. rewrite Hz in Ediv.
    destruct (count_of_ages ps) as [|c|c];
      [contradiction|cbn in Ediv; congruence|lia].
  - split; [lia|reflexivity].
  - split; [lia|reflexivity].
  - split; [lia|]. split; [exact I|]. intros Hz. rewrite Hz in Ediv.
    destruct (count_of_ages ps) as [|c|c];
      [contradiction|cbn in Ediv; congruence|lia].
Qed.

Lemma average_outcomes_witness :
  1 <= 5
  /\ calculate_average_age None 5 newborn_store
     = Returns (Some (S754_zero false))
  /\ sum_of_ages (read_all_patients None newborn_store) = 0.
Proof.
  assert (Hb : 1 <= 5) by lia.
  pose proof (average_outcomes None 5 newborn_store Hb) as H.
  cbv zeta in H.
  assert (Hs : sum_of_ages (read_all_patients None newborn_store) = 0)
    by reflexivity.
  split; [exact Hb|].
  destruct (calculate_average_age None 5 newborn_store) as [[x|]|e] eqn:E.
  - destruct H as (_ & _ & Hx). rewrite (Hx Hs). auto.
  - vm_compute in E. discriminate E.
  - vm_compute in E. discriminate E.
Defined.

(** X13. With both reads of the table working, the average-age handler
    answers 404 exactly when no age parses, and otherwise 200 or 500. *)
Theorem average_age_status (st : Store) :
  (status (get_average_age None None st) = 404
   <-> count_of_ages (read_all_patients None st) = 0)
  /\ (status (get_average_age None None st) = 200
      \/ status (get_average_age None None st) = 404
      \/ status (get_average_age None None st) = 500).
Proof.
  rewrite get_average_age_cases. unfold average.
  destruct (Z.eqb_spec (count_of_ages (read_all_patients None st)) 0)
    as [E|Hne].
  - cbn. tauto.
  - destruct (int_true_divide _ _) as [x|e]; cbn [bind].
    + destruct (round x 2); cbn [status]; (split; [split|]);
        auto; try discriminate; contradiction.
    + cbn [status]. (split; [split|]); auto; try discriminate; contradiction.
Qed.

(** X10. When a read of the table fails inside the average-age handler:
    if the first read fails the answer is the 404 for no valid ages,
    whatever the table holds; if only the second read fails the answer is
    200 and reports the average next to a [patient_count] and a
    [total_patients] of 0. *)
Theorem average_age_when_a_read_fails
  (e : exn) (io2 : fault) (st : Store) (x r : float) :
  calculate_average_ages None st = Returns (Some x) ->
  round x 2 = Returns r ->
  get_average_age (Some e) io2 st
  = mkResponse [("error", JStr "No valid ages found");
                ("patient_count", JInt 0)]%string 404
  /\ get_average_age None (Some e) st
     = mkResponse [("average_age", JFloat r);
                   ("patient_count", JInt 0);
                   ("total_patients", JInt 0)]%string 200.
Proof.
  intros Hx Hr. split; [reflexivity|].
  unfold get_average_age. rewrite Hx. cbn [bind read_all_patients connect].
  cbn [count_valid bind List.length Z.of_nat]. now rewrite Hr.
Qed.

Lemma average_age_when_a_read_fails_witness :
  calculate_average_ages None test_store
  = Returns (Some (S754_finite false 6427011968226645 (-47)))
  /\ round (S754_finite false 6427011968226645 (-47)) 2
     = Returns (S754_finite false 6427481093187830 (-47))
  /\ status (get_average_age None (Some sqlite3_Error) test_store) = 200.
Proof.
  assert (Hx : calculate_average_ages None test_store
               = Returns (Some (S754_finite false 6427011968226645 (-47))))
    by (vm_compute; reflexivity).
  assert (Hr : round (S754_finite false 6427011968226645 (-47)) 2
               = Returns (S754_finite false 6427481093187830 (-47)))
    by (vm_compute; reflexivity).
  split; [exact Hx|]. split; [exact Hr|].
  destruct (average_age_when_a_read_fails sqlite3_Error None test_store
              _ _ Hx Hr) as [_ ->].
  reflexivity.
Defined.

End AverageAgeEdges.

(** * The patient routes *)

Section Routes.
Import crud_routes.

Lemma present_or_absent (i : Z) (st : Store) :
  In i (ids st) \/ ~ In i (ids st).
Proof. destruct (in_dec Z.eq_dec i (ids st)); auto. Qed.

Lemma rowcount_positive (i : Z) (st : Store) :
  In i (ids st) -> 0 < rowcount i st.
Proof.
  intros Hin. unfold rowcount.
  destruct (find_present i (rows st) Hin) as (r & _ & Hid & Hr).
  assert (Hf : In r (filter (id_is i) (rows st))).
  { apply filter_In. split; [exact Hr|]. unfold id_is. lia. }
  destruct (filter (id_is i) (rows st)); [destruct Hf|cbn; lia].
Qed.

(** X15. [DELETE /patients/<id>] answers 200 exactly when the storage layer
    works and a row has the id; then no row has the id any more and a [GET]
    of it answers 404.  In every other case it answers 404 and the table is
    unchanged. *)
Theorem delete_route (io : fault) (patient_id : Z) (st : Store) :
  let ans := fst (delete_patient_endpoint io patient_id st) in
  let st' := snd (delete_patient_endpoint io patient_id st) in
  (ans = Reply (ODict [("message",
                        OStr ("Patient with ID " ++ str_of_int patient_id
                              ++ " has been deleted."))]%string) 200
   /\ io = None /\ In patient_id (ids st) /\ ~ In patient_id (ids st')
   /\ read_patient_by_id_endpoint None patient_id st'
      = Reply (ODict [("error", OStr "Patient not found")]%string) 404)
  \/ (ans = Reply (ODict [("error", OStr "Patient not found")]%string) 404
      /\ st' = st
      /\ (io <> None \/ ~ In patient_id (ids st))).
Proof.
  intros ans st'. subst ans st'. unfold delete_patient_endpoint.
  destruct io as [e|].
  - right. cbn. split; [reflexivity|]. split; [reflexivity|].
    left. discriminate.
  - destruct (present_or_absent patient_id st) as [Hin|Habs].
    + left. pose proof (rowcount_positive _ _ Hin) as Hpos.
      unfold delete_patient. cbn [connect bind delete].
      destruct (Z.eqb_spec (rowcount patient_id st) 0) as [?|_]; [lia|].
      cbn [fst snd].
      pose proof (ids_after_delete patient_id st) as Hgone.
      cbn [delete snd] in Hgone.
      split; [reflexivity|]. split; [reflexivity|]. split; [exact Hin|].
      split; [exact Hgone|].
      unfold read_patient_by_id_endpoint. now rewrite read_absent.
    + right. rewrite (delete_absent None _ _ Habs). cbn.
      split; [reflexivity|]. split; [reflexivity|]. now right.
Qed.

(** X16. [PUT /patients/<id>] with text under the three keys, on an id that
    exactly one row has and with the storage layer working, answers 200
    with the new record under the id of the path, and a [GET] of the id then
    answers the same.  If the storage layer fails on the read-back only, the
    handler lets [AttributeError] out although the row has been written. *)
Theorem put_route
  (i : Z) (n a d : string) (patient_data : list (string * pyval))
  (e : exn) (st : Store) :
  NoDup (ids st) -> In i (ids st) ->
  getitem patient_data "name" = Some (PyStr n) ->
  getitem patient_data "age" = Some (PyStr a) ->
  getitem patient_data "disease" = Some (PyStr d) ->
  let record :=
    ODict [("id", OInt i); ("name", OStr n);
           ("age", OStr a); ("disease", OStr d)]%string in
  let st' := snd (update_patient_endpoint i patient_data None None st) in
  fst (update_patient_endpoint i patient_data None None st) = Reply record 200
  /\ read_patient_by_id_endpoint None i st' = Reply record 200
  /\ update_patient_endpoint i patient_data None (Some e) st
     = (Unhandled AttributeError, st').
Proof.
  intros Hnd Hin Hn Ha Hd record st'. subst record st'.
  unfold update_patient_endpoint. rewrite Hn, Ha, Hd.
  destruct (update_read_back i n a d st Hnd Hin) as (H1 & Hread & _).
  cbv zeta in H1, Hread.
  destruct (update_patient None _ st) as [k st1] eqn:E.
  cbn [fst snd] in *. subst k. cbn [Z.eqb fst snd].
  rewrite Hread. cbn [fst snd].
  unfold read_patient_by_id_endpoint. rewrite Hread.
  split; [reflexivity|]. split; reflexivity.
Qed.

Lemma put_route_witness :
  NoDup (ids test_store) /\ In 2 (ids test_store)
  /\ fst (update_patient_endpoint 2
            [("name", PyStr "J"); ("age", PyStr "33");
             ("disease", PyStr "flu")]%string None None test_store)
     = Reply (ODict [("id", OInt 2); ("name", OStr "J");
                     ("age", OStr "33"); ("disease", OStr "flu")]%string) 200.
Proof.
  assert (Hnd : NoDup (ids test_store)).
  { apply wf_NoDup. apply (create_all_appends _ empty wf_empty). }
  assert (Hin : In 2 (ids test_store)) by (vm_compute; tauto).
  split; [exact Hnd|]. split; [exact Hin|].
  apply (put_route 2 "J" "33" "flu"
           [("name", PyStr "J"); ("age", PyStr "33");
            ("disease", PyStr "flu")]%string
           sqlite3_Error test_store Hnd Hin eq_refl eq_refl eq_refl).
Defined.

(** X17. [PUT /patients/<id>] never adds or changes a row when no row has
    the id, when the storage layer fails during the update, or when a value
    of the body is [null]: the table is unchanged, and the answer is the 404
    of the handler or the [KeyError] of a missing key. *)
Theorem put_route_refused
  (i : Z) (patient_data : list (string * pyval)) (io_update io_read : fault)
  (st : Store) :
  ~ In i (ids st) \/ io_update <> None
  \/ getitem patient_data "name" = Some PyNone
  \/ getitem patient_data "age" = Some PyNone
  \/ getitem patient_data "disease" = Some PyNone ->
  snd (update_patient_endpoint i patient_data io_update io_read st) = st
  /\ (fst (update_patient_endpoint i patient_data io_update io_read st)
      = Reply (ODict [("error",
                       OStr "Patient not found or update failed")]%string) 404
      \/ exists key,
          fst (update_patient_endpoint i patient_data io_update io_read st)
          = Unhandled (KeyError key)).
Proof.
  intros H. unfold update_patient_endpoint.
  destruct (getitem patient_data "name") as [n|] eqn:En;
    [|split; [reflexivity|right; eexists; reflexivity]].
  destruct (getitem patient_data "age") as [a|] eqn:Ea;
    [|split; [reflexivity|right; eexists; reflexivity]].
  destruct (getitem patient_data "disease") as [d|] eqn:Ed;
    [|split; [reflexivity|right; eexists; reflexivity]].
  assert (Hu : update_patient io_update (mkPatient (Some i) n a d) st
               = (0, st)).
  { destruct H as [Habs|[Hio|Hnull]].
    - apply update_absent. cbn [id]. intros j [= <-]. exact Habs.
    - destruct io_update as [e|]; [reflexivity|contradiction].
    - unfold update_patient, update.
      destruct io_update as [e|]; [reflexivity|].
      cbn [connect bind id name age disease].
      destruct (rowcount i st =? 0); [reflexivity|].
      destruct n as [|n], a as [|a], d as [|d]; try reflexivity.
      destruct Hnull as [Hn|[Hn|Hn]]; discriminate Hn. }
  rewrite Hu. cbn. auto.
Qed.

Lemma put_route_refused_witness :
  ~ In 9 (ids test_store)
  /\ update_patient_endpoint 9
       [("name", PyStr "J"); ("age", PyStr "33");
        ("disease", PyStr "flu")]%string None None test_store
     = (Reply (ODict [("error",
                       OStr "Patient not found or update failed")]%string)
              404, test_store).
Proof.
  assert (Habs : ~ In 9 (ids test_store))
    by (vm_compute; intuition discriminate).
  split; [exact Habs|].
  destruct (put_route_refused 9
              [("name", PyStr "J"); ("age", PyStr "33");
               ("disease", PyStr "flu")]%string None None test_store
              (or_introl Habs)) as [Hst _].
  reflexivity.
Defined.

(** X18. [POST /patients] with text under the three keys, on a well-formed
    table with ids to spare, the storage layer and the mail service
    working: the answer is 201 with the record under the next id, one mail
    is sent, a [GET] of the new id answers the same record, and [GET
    /patients] lists it after the records it listed before. *)
Theorem post_route
  (n a d now_str : string) (patient_data : list (string * pyval))
  (st : Store) :
  wf st -> sequence st < max_rowid ->
  getitem patient_data "name" = Some (PyStr n) ->
  getitem patient_data "age" = Some (PyStr a) ->
  getitem patient_data "disease" = Some (PyStr d) ->
  let i := sequence st + 1 in
  let record :=
    [("id", OInt i); ("name", OStr n);
     ("age", OStr a); ("disease", OStr d)]%string in
  let out :=
    create_patient_endpoint patient_data None None now_str (Returns tt) st in
  let st' := snd (fst out) in
  fst (fst out) = Reply (ODict record) 201
  /\ List.length (snd out) = 1%nat
  /\ read_patient_by_id_endpoint None i st' = Reply (ODict record) 200
  /\ (forall listed,
        crud_routes.read_all_patients None st = Reply (OList listed) 200 ->
        crud_routes.read_all_patients None st'
        = Reply (OList (listed ++ [record])) 200).
Proof.
  intros Hwf Hroom Hn Ha Hd i record out st'. subst i record out st'.
  unfold create_patient_endpoint. rewrite Hn, Ha, Hd.
  pose proof (create_patient_succeeds None n a d st) as Hc.
  rewrite (largest_rowid_wf _ Hwf) in Hc. specialize (Hc Hroom).
  assert (Hi : fst (create_patient None
                      (mkPatient None (PyStr n) (PyStr a) (PyStr d)) st)
               = Some (sequence st + 1)) by now rewrite Hc.
  destruct (create_read_back None _ st _ Hwf Hi) as (Hread & _).
  cbv zeta in Hread. rewrite Hc in *. cbn [fst snd] in *.
  rewrite Hread. cbn [fst snd List.length].
  unfold read_patient_by_id_endpoint. rewrite Hread.
  split; [reflexivity|]. split; [reflexivity|]. split; [reflexivity|].
  intros listed [= <-]. unfold crud_routes.read_all_patients.
  unfold db_services.read_all_patients. cbn [connect bind rows].
  now rewrite !map_app.
Qed.

Lemma post_route_witness :
  wf test_store /\ sequence test_store < max_rowid
  /\ fst (fst (create_patient_endpoint
                 [("name", PyStr "J"); ("age", PyStr "33");
                  ("disease", PyStr "flu")]%string
                 None None "2024-01-01 00:00:00" (Returns tt) test_store))
     = Reply (ODict [("id", OInt 5); ("name", OStr "J");
                     ("age", OStr "33"); ("disease", OStr "flu")]%string) 201.
Proof.
  assert (Hwf : wf test_store)
    by apply (create_all_appends _ empty wf_empty).
  assert (Hroom : sequence test_store < max_rowid) by reflexivity.
  split; [exact Hwf|]. split; [exact Hroom|].
  apply (post_route "J" "33" "flu" "2024-01-01 00:00:00"
           [("name", PyStr "J"); ("age", PyStr "33");
            ("disease", PyStr "flu")]%string
           test_store Hwf Hroom eq_refl eq_refl eq_refl).
Defined.

(** X19. [POST /patients] sends a mail only with its 201 answer, and then
    exactly one; its 500 answer and the [KeyError] of a missing key leave
    the table unchanged.  When the read-back fails or [send_gmail] raises,
    the exception leaves the handler after the row has been stored. *)
Theorem post_route_errors
  (patient_data : list (string * pyval)) (io_create io_read : fault)
  (now_str : string) (mail : outcome unit) (st : Store) :
  let out :=
    create_patient_endpoint patient_data io_create io_read now_str mail st in
  let ans := fst (fst out) in
  let st' := snd (fst out) in
  ((exists record, ans = Reply record 201 /\ List.length (snd out) = 1%nat)
   \/ ((forall record, ans <> Reply record 201) /\ snd out = []))
  /\ (forall record, ans = Reply record 500 -> st' = st)
  /\ (forall key, ans = Unhandled (KeyError key) -> st' = st)
  /\ (ans = Unhandled AttributeError \/ (exists e, ans = Unhandled (Escaped e))
      -> exists p, create_patient io_create p st = (Some (sequence st'), st')
                   /\ io_create = None).
Proof.
  intros out ans st'. subst out ans st'. unfold create_patient_endpoint.
  destruct (getitem patient_data "name") as [n|];
    [|cbn; repeat split; try (right; split); try discriminate; auto;
      intros [?|[? ?]]; discriminate].
  destruct (getitem patient_data "age") as [a|];
    [|cbn; repeat split; try (right; split); try discriminate; auto;
      intros [?|[? ?]]; discriminate].
  destruct (getitem patient_data "disease") as [d|];
    [|cbn; repeat split; try (right; split); try discriminate; auto;
      intros [?|[? ?]]; discriminate].
  destruct (create_patient_cases io_create (mkPatient None n a d) st)
    as [E|(n' & a' & d' & _ & _ & _ & _ & E)]; rewrite E.
  - cbn. repeat split; try (right; split); try discriminate; auto.
    intros [?|[? ?]]; discriminate.
  - assert (Hio : io_create = None).
    { destruct io_create; [discriminate E|reflexivity]. }
    destruct (read_patient_by_id io_read _ _) as [created|].
    + destruct mail as [[]|e]; cbn [fst snd List.length].
      * split; [left; eauto|]. split; [discriminate|]. split; [discriminate|].
        intros [?|[? ?]]; discriminate.
      * split; [right; split; [discriminate|reflexivity]|].
        split; [discriminate|]. split; [discriminate|].
        intros _. eexists. split; [exact E|exact Hio].
    + cbn [fst snd]. split; [right; split; [discriminate|reflexivity]|].
      split; [discriminate|]. split; [discriminate|].
      intros _. eexists. split; [exact E|exact Hio].
Qed.

End Routes.

(** * The interest rates and the disease scraper *)

Section Rates.
Import pydict db_services_rates.

Lemma lookup_setitem (d : list (string * string)) (key value k : string) :
  lookup (setitem d key value) k
  = if String.eqb key k then Some value else lookup d k.
Proof.
  induction d as [|[k0 v0] d IH]; cbn [setitem lookup].
  - reflexivity.
  - destruct (String.eqb_spec k0 key) as [->|Hne]; cbn [lookup].
    + now destruct (String.eqb key k).
    + rewrite IH. destruct (String.eqb_spec k0 k) as [->|_]; [|reflexivity].
      destruct (String.eqb_spec key k) as [->|_]; [contradiction|reflexivity].
Qed.

Lemma setitem_keys (d : list (string * string)) (key value : string) :
  NoDup (map fst d) ->
  NoDup (map fst (setitem d key value))
  /\ (forall k, In k (map fst (setitem d key value))
                <-> k = key \/ In k (map fst d))
  /\ (List.length (setitem d key value) <= S (List.length d))%nat.
Proof.
  induction d as [|[k0 v0] d IH]; intros Hnd; cbn [setitem].
  - cbn. repeat split; try (repeat constructor; auto); try lia;
      intuition auto.
  - cbn [map fst] in Hnd. inversion Hnd as [|? ? Hk0 Hd]; subst.
    destruct (String.eqb_spec k0 key) as [->|Hne]; cbn [map fst List.length].
    + split; [exact Hnd|]. split; [cbn; intuition auto|lia].
    + destruct (IH Hd) as (IHnd & IHin & IHlen).
      split; [|split; [|lia]].
      * constructor; [|exact IHnd]. rewrite IHin. intuition auto.
      * intros k. cbn [In]. rewrite IHin. intuition auto.
Qed.

Lemma rates_loop_spec (table_rows : list (list string))
  (rates : list (string * string)) :
  NoDup (map fst rates) ->
  NoDup (map fst (rates_loop table_rows rates))
  /\ (List.length (rates_loop table_rows rates)
      <= List.length rates + List.length table_rows)%nat
  /\ (forall key, lookup (rates_loop table_rows rates) key
                  = last_value key table_rows (lookup rates key)).
Proof.
  revert rates. induction table_rows as [|cols rest IH]; intros rates Hnd.
  - cbn. split; [exact Hnd|]. split; [lia|reflexivity].
  - cbn [rates_loop last_value fold_left List.length].
    destruct cols as [|c0 [|c1 cols]].
    + destruct (IH rates Hnd) as (H1 & H2 & H3).
      split; [exact H1|]. split; [lia|exact H3].
    + destruct (IH rates Hnd) as (H1 & H2 & H3).
      split; [exact H1|]. split; [lia|exact H3].
    + destruct (setitem_keys rates c0 c1 Hnd) as (Hnd' & _ & Hlen).
      destruct (IH _ Hnd') as (H1 & H2 & H3).
      split; [exact H1|]. split; [lia|].
      intros key. rewrite H3, lookup_setitem. reflexivity.
Qed.

(** X20. [fetch_interest_rates] returns the empty dict on any exception.
    Otherwise only the first five rows of the table count, and of these the
    rows with two cells or more: the dict has at most five keys, and under a
    key it holds the second cell of the last such row that has the key in
    its first cell. *)
Theorem fetch_interest_rates_dict
  (table_rows : list (list string)) (e : exn) (key : string) :
  fetch_interest_rates (Raises e) = []
  /\ NoDup (map fst (fetch_interest_rates (Returns table_rows)))
  /\ (List.length (fetch_interest_rates (Returns table_rows)) <= 5)%nat
  /\ lookup (fetch_interest_rates (Returns table_rows)) key
     = last_value key (firstn 5 table_rows) None.
Proof.
  split; [reflexivity|]. unfold fetch_interest_rates.
  destruct (rates_loop_spec (firstn 5 table_rows) [] (NoDup_nil _))
    as (H1 & H2 & H3).
  split; [exact H1|]. split; [|apply H3].
  pose proof (firstn_le_length 5 table_rows). cbn [List.length] in H2. lia.
Qed.

End Rates.

Section Scraper.
Import pydict scraper.

Lemma length_append (s1 s2 : string) :
  String.length (s1 ++ s2) = (String.length s1 + String.length s2)%nat.
Proof. induction s1 as [|c s1 IH]; cbn; [reflexivity|now rewrite IH]. Qed.

Lemma length_substring (n : nat) (s : string) :
  (String.length (substring 0 n s) <= n)%nat.
Proof.
  revert s. induction n as [|n IH]; intros [|c s]; cbn; try lia.
  specialize (IH s). lia.
Qed.

Lemma full_url_http (disease_url : string) :
  startswith (full_url_of disease_url) "http" = true.
Proof.
  unfold full_url_of.
  destruct (startswith disease_url "http") eqn:E; [exact E|reflexivity].
Qed.

Lemma extract_loop_spec
  (fetch : nat -> string -> result (option string))
  (entries : list anchor) (k : nat)
  (acc l : list (list (string * string))) :
  extract_loop k entries fetch acc = Ok l ->
  exists added,
    l = acc ++ added
    /\ Forall well_formed_record added
    /\ map (fun d => lookup d "disease") added
       = map (fun entry => Some (text entry)) (filter kept entries).
Proof.
  revert k acc. induction entries as [|entry rest IH]; intros k acc H.
  - injection H as <-. exists []. now rewrite app_nil_r.
  - cbn [extract_loop] in H. cbn [filter]. unfold kept at 1.
    destruct (href entry) as [u|]; [|apply (IH _ _ H)].
    destruct (nonempty (text entry) && nonempty u
              && negb (excluded (text entry))) eqn:Ek;
      [|apply (IH _ _ H)].
    apply andb_true_iff in Ek. destruct Ek as [Ek Hex].
    apply andb_true_iff in Ek. destruct Ek as [Hname Hurl].
    apply negb_true_iff in Hex.
    assert (Hstep : forall description,
               (String.length description <= 203)%nat ->
               extract_loop (S k) rest fetch
                 (acc ++ [disease_data (text entry) description
                                       (full_url_of u)]) = Ok l ->
               exists added,
                 l = acc ++ added
                 /\ Forall well_formed_record added
                 /\ map (fun d => lookup d "disease") added
                    = Some (text entry)
                      :: map (fun entry => Some (text entry))
                             (filter kept rest)).
    { intros description Hlen H'.
      destruct (IH _ _ H') as (added & -> & Hall & Hnames).
      eexists (_ :: added). rewrite <- app_assoc. cbn [app map].
      split; [reflexivity|]. split.
      + constructor; [|exact Hall].
        exists (text entry), description, u.
        split; [reflexivity|]. split; [exact Hname|]. split; [exact Hex|].
        split; [exact Hurl|exact Hlen].
      + now rewrite Hnames. }
    destruct (fetch k (full_url_of u)) as [[t|]|[| |]].
    + refine (Hstep _ _ H).
      rewrite length_append. pose proof (length_substring 200 t) as Hs.
      change (String.length "...") with 3%nat. lia.
    + refine (Hstep _ _ H). cbn. lia.
    + refine (Hstep _ _ H). cbn. lia.
    + refine (Hstep _ _ H). cbn. lia.
    + discriminate H.
Qed.

Lemma extract_loop_returns
  (fetch : nat -> string -> result (option string))
  (entries : list anchor) (k : nat) (acc : list (list (string * string))) :
  (forall j u, fetch j u <> Error OtherException) ->
  exists l, extract_loop k entries fetch acc = Ok l.
Proof.
  intros Hfetch. revert k acc.
  induction entries as [|entry rest IH]; intros k acc; cbn [extract_loop].
  - eauto.
  - destruct (href entry) as [u|]; [|apply IH].
    destruct (nonempty (text entry) && nonempty u
              && negb (excluded (text entry))); [|apply IH].
    destruct (fetch k (full_url_of u)) as [[t|]|[| |]] eqn:E;
      try apply IH.
    now apply Hfetch in E.
Qed.

(** X21. Every record that [extract_diseases] returns has the keys
    'disease', 'description', 'source' and 'url', with a name that is not
    empty and starts with none of 'See all', 'More', 'View all', a
    description of at most 203 characters, the fixed source, and a url that
    starts with 'http'; and there are at most ten records. *)
Theorem extract_diseases_records
  (content : option (list anchor))
  (fetch : nat -> string -> result (option string))
  (l : list (list (string * string))) :
  extract_diseases content fetch = Ok l ->
  (List.length l <= 10)%nat
  /\ Forall (fun d =>
               exists disease_name description full_url,
                 d = [("disease", disease_name);
                      ("description", description);
                      ("source", "WHO Health Topics");
                      ("url", full_url)]%string
                 /\ nonempty disease_name = true
                 /\ excluded disease_name = false
                 /\ (String.length description <= 203)%nat
                 /\ startswith full_url "http" = true) l.
Proof.
  unfold extract_diseases. destruct content as [entries|].
  - intros H. destruct (extract_loop_spec _ _ _ _ _ H)
      as (added & -> & Hall & Hnames).
    cbn [app]. split.
    + apply (f_equal (@List.length _)) in Hnames.
      rewrite !length_map in Hnames. rewrite Hnames.
      pose proof (filter_length_le kept (firstn 10 entries)).
      pose proof (firstn_le_length 10 entries). lia.
    + eapply Forall_impl; [|exact Hall].
      intros d (nm & ds & u & -> & H1 & H2 & _ & H4).
      exists nm, ds, (full_url_of u).
      split; [reflexivity|]. split; [exact H1|]. split; [exact H2|].
      split; [exact H4|apply full_url_http].
  - intros [= <-]. split; [cbn; lia|constructor].
Qed.

Lemma extract_diseases_records_witness :
  extract_diseases
    (Some [mkAnchor "Malaria" (Some "/health-topics/malaria");
           mkAnchor "See all topics" (Some "/all");
           mkAnchor "" (Some "/x");
           mkAnchor "Cholera" None;
           mkAnchor "Ebola" (Some "http://example.org/ebola")]%string)
    (fun k _ => match k with
                | O => Ok (Some "A disease."%string)
                | _ => Error RequestException
                end)
  = Ok [[("disease", "Malaria"); ("description", "A disease....");
         ("source", "WHO Health Topics");
         ("url", "https://www.who.int/health-topics/malaria")];
        [("disease", "Ebola"); ("description", "No description available.");
         ("source", "WHO Health Topics");
         ("url", "http://example.org/ebola")]]%string
  /\ (2 <= 10)%nat.
Proof.
  assert (H : extract_diseases
    (Some [mkAnchor "Malaria" (Some "/health-topics/malaria");
           mkAnchor "See all topics" (Some "/all");
           mkAnchor "" (Some "/x");
           mkAnchor "Cholera" None;
           mkAnchor "Ebola" (Some "http://example.org/ebola")]%string)
    (fun k _ => match k with
                | O => Ok (Some "A disease."%string)
                | _ => Error RequestException
                end)
  = Ok [[("disease", "Malaria"); ("description", "A disease....");
         ("source", "WHO Health Topics");
         ("url", "https://www.who.int/health-topics/malaria")];
        [("disease", "Ebola"); ("description", "No description available.");
         ("source", "WHO Health Topics");
         ("url", "http://example.org/ebola")]]%string) by reflexivity.
  split; [exact H|].
  exact (proj1 (extract_diseases_records _ _ _ H)).
Defined.

(** X22. When no page fetch raises anything but [RequestException] or
    [ValueError], [extract_diseases] returns, and the names of its records
    are, in order, the texts of the anchors among the first ten that pass
    its tests (text and [href] not empty, text not starting with 'See all',
    'More' or 'View all'): a failed fetch costs the description, not the
    record. *)
Theorem extract_diseases_names
  (entries : list anchor) (fetch : nat -> string -> result (option string)) :
  (forall k u, fetch k u <> Error OtherException) ->
  exists l,
    extract_diseases (Some entries) fetch = Ok l
    /\ map (fun d => lookup d "disease") l
       = map (fun entry => Some (text entry))
             (filter kept (firstn 10 entries)).
Proof.
  intros Hfetch. unfold extract_diseases.
  destruct (extract_loop_returns fetch (firstn 10 entries) 0 [] Hfetch)
    as [l Hl].
  exists l. split; [exact Hl|].
  destruct (extract_loop_spec _ _ _ _ _ Hl) as (added & Heq & _ & Hnames).
  cbn [app] in Heq. now subst l.
Qed.

Lemma extract_diseases_names_witness :
  (forall (k : nat) (u : string),
      (fun _ _ => Error RequestException) k u
      <> @Error (option string) OtherException)
  /\ exists l,
      extract_diseases
        (Some [mkAnchor "Malaria" (Some "/m"); mkAnchor "More" (Some "/x")]
        %string)
        (fun _ _ => Error RequestException) = Ok l
      /\ map (fun d => lookup d "disease") l = [Some "Malaria"]%string.
Proof.
  assert (Hf : forall (k : nat) (u : string),
             (fun _ _ => Error RequestException) k u
             <> @Error (option string) OtherException)
    by (intros k u; discriminate).
  split; [exact Hf|].
  exact (extract_diseases_names
           [mkAnchor "Malaria" (Some "/m"); mkAnchor "More" (Some "/x")]
           %string _ Hf).
Defined.

Lemma extract_loop_unexpected
  (fetch : nat -> string -> result (option string))
  (entries : list anchor) (k j : nat) (entry : anchor) (u : string)
  (acc : list (list (string * string))) :
  nth_error entries j = Some entry ->
  kept entry = true -> href entry = Some u ->
  fetch (k + j)%nat (full_url_of u) = Error OtherException ->
  extract_loop k entries fetch acc = Error OtherException.
Proof.
  revert k j acc.
  induction entries as [|e0 rest IH]; intros k j acc Hnth Hk Hu Hf.
  - destruct j; discriminate Hnth.
  - destruct j as [|j]; cbn [nth_error] in Hnth.
    + injection Hnth as ->. cbn [extract_loop]. rewrite Hu.
      unfold kept in Hk. rewrite Hu in Hk. rewrite Hk.
      rewrite Nat.add_0_r in Hf. now rewrite Hf.
    + assert (Hrest : forall acc', extract_loop (S k) rest fetch acc'
                                   = Error OtherException).
      { intros acc'. apply (IH (S k) j acc' Hnth Hk Hu).
        now rewrite Nat.add_succ_comm. }
      cbn [extract_loop].
      destruct (href e0) as [v|]; [|apply Hrest].
      destruct (nonempty (text e0) && nonempty v && negb (excluded (text e0)));
        [|apply Hrest].
      destruct (fetch k (full_url_of v)) as [[t|]|[| |]];
        try apply Hrest. reflexivity.
Qed.

(** X23. [scrape] and the file of scraped diseases.  If the topics page
    cannot be fetched the file is left as it was.  If the page has no
    topics block the file is overwritten with the empty list.  If the page
    of one of the kept anchors among the first ten raises an unexpected
    exception the file is left as it was, and the records already read are
    dropped. *)
Theorem scrape_file
  (entries : list anchor) (fetch : nat -> string -> result (option string))
  (file : option (list (list (string * string))))
  (e : error) (j : nat) (entry : anchor) (u : string) :
  nth_error (firstn 10 entries) j = Some entry ->
  kept entry = true -> href entry = Some u ->
  fetch j (full_url_of u) = Error OtherException ->
  scrape (Error e) fetch file = file
  /\ scrape (Ok None) fetch file = Some []
  /\ scrape (Ok (Some entries)) fetch file = file.
Proof.
  intros Hnth Hk Hu Hf. split; [reflexivity|]. split; [reflexivity|].
  unfold scrape, extract_diseases.
  now rewrite (extract_loop_unexpected fetch _ 0 j entry u [] Hnth Hk Hu Hf).
Qed.

Lemma scrape_file_witness :
  nth_error (firstn 10 [mkAnchor "Malaria" (Some "/m")]%string) 0
  = Some (mkAnchor "Malaria" (Some "/m"))%string
  /\ scrape (Ok (Some [mkAnchor "Malaria" (Some "/m")]%string))
        (fun _ _ => Error OtherException) (Some [[("disease", "Flu")]]%string)
     = Some [[("disease", "Flu")]]%string.
Proof.
  assert (Hnth : nth_error (firstn 10 [mkAnchor "Malaria" (Some "/m")]%string)
                   0 = Some (mkAnchor "Malaria" (Some "/m"))%string)
    by reflexivity.
  split; [exact Hnth|].
  apply (scrape_file [mkAnchor "Malaria" (Some "/m")]%string
           (fun _ _ => Error OtherException)
           (Some [[("disease", "Flu")]]%string)
           RequestException 0 _ "/m"%string Hnth eq_refl eq_refl eq_refl).
Defined.

End Scraper.

(** * The command-line client *)

Section Client.
Import client_cli.
Variable env : environment.

Ltac run_bind m w :=
  unfold bind; destruct (m w) as [[?a|?e] ?w1] eqn:?E; cbn [fst snd] in *.

Lemma bind_inl {A B} (m : cli A) (k : A -> cli B) (w w' : world) (b : B) :
  bind m k w = (inl b, w') ->
  exists a w1, m w = (inl a, w1) /\ k a w1 = (inl b, w').
Proof.
  unfold bind. destruct (m w) as [[a|e] w1]; [eauto|discriminate].
Qed.

Lemma bind_inr {A B} (m : cli A) (k : A -> cli B) (w w' : world) (e : error) :
  bind m k w = (inr e, w') ->
  m w = (inr e, w')
  \/ exists a w1, m w = (inl a, w1) /\ k a w1 = (inr e, w').
Proof.
  unfold bind. destruct (m w) as [[a|e0] w1]; [eauto|].
  intros [= -> ->]. now left.
Qed.

(** ** The table is written only by the writing calls *)

Lemma quiet_ret {A} (a : A) : quiet (ret a).
Proof. intros w. reflexivity. Qed.

Lemma quiet_raise {A} (e : error) : quiet (@raise A e).
Proof. intros w. reflexivity. Qed.

Lemma quiet_input : quiet input.
Proof. intros w. unfold input. now destruct (stdin w). Qed.

Lemma quiet_print (p : printed) : quiet (print p).
Proof. intros w. reflexivity. Qed.

Lemma quiet_reading {A} (f : fault -> Store -> A) : quiet (reading env f).
Proof. intros w. reflexivity. Qed.

Lemma quiet_send_gmail : quiet (send_gmail env).
Proof. intros w. reflexivity. Qed.

Lemma quiet_bind {A B} (m : cli A) (k : A -> cli B) :
  quiet m -> (forall a, quiet (k a)) -> quiet (bind m k).
Proof.
  intros Hm Hk w. specialize (Hm w). run_bind m w.
  - now rewrite Hk.
  - exact Hm.
Qed.

Lemma quiet_int_input : quiet int_input.
Proof.
  apply quiet_bind; [apply quiet_input|]. intros line.
  destruct (int (PyStr line)); [apply quiet_ret|apply quiet_raise].
Qed.

Lemma quiet_print_patients (ps : list Patient) : quiet (print_patients ps).
Proof.
  induction ps as [|p ps IH]; [apply quiet_ret|].
  apply quiet_bind; [apply quiet_print|]. intros _. exact IH.
Qed.

Lemma quiet_ask_field (old : pyval) : quiet (ask_field old).
Proof.
  apply quiet_bind; [apply quiet_input|]. intros user_input.
  destruct (String.eqb _ _); [apply quiet_ret|].
  apply quiet_bind; [apply quiet_input|]. intros v. apply quiet_ret.
Qed.

Lemma quiet_choice_2 : quiet (choice_2 env).
Proof.
  apply quiet_bind; [apply quiet_reading|]. intros [|p ps];
    [apply quiet_print|].
  apply quiet_bind; [apply quiet_print|]. intros _.
  apply quiet_print_patients.
Qed.

Lemma quiet_choice_3 : quiet (choice_3 env).
Proof.
  apply quiet_bind; [apply quiet_int_input|]. intros i.
  apply quiet_bind; [apply quiet_reading|]. intros [p|]; apply quiet_print.
Qed.

Lemma quiet_choice_6 : quiet (choice_6 env).
Proof.
  intros w. unfold choice_6.
  destruct (scraped env) as [| |e|[|d ds]]; reflexivity.
Qed.

Lemma quiet_choice_7 : quiet (choice_7 env).
Proof.
  apply quiet_bind; [apply quiet_reading|]. intros [[x|]|e];
    [apply quiet_print|apply quiet_print|apply quiet_raise].
Qed.

(** ** Where [ValueError] can come from *)

Lemma no_ValueError_ret {A} (a : A) : no_ValueError (ret a).
Proof. intros w. discriminate. Qed.

Lemma no_ValueError_input : no_ValueError input.
Proof. intros w. unfold input. destruct (stdin w); discriminate. Qed.

Lemma no_ValueError_print (p : printed) : no_ValueError (print p).
Proof. intros w. discriminate. Qed.

Lemma no_ValueError_reading {A} (f : fault -> Store -> A) :
  no_ValueError (reading env f).
Proof. intros w. discriminate. Qed.

Lemma no_ValueError_writing {A} (f : fault -> Store -> A * Store) :
  no_ValueError (writing env f).
Proof. intros w. unfold writing. destruct (f _ _). discriminate. Qed.

Lemma no_ValueError_send_gmail : no_ValueError (send_gmail env).
Proof. intros w. discriminate. Qed.

Lemma no_ValueError_bind {A B} (m : cli A) (k : A -> cli B) :
  no_ValueError m -> (forall a, no_ValueError (k a)) ->
  no_ValueError (bind m k).
Proof.
  intros Hm Hk w. specialize (Hm w). run_bind m w.
  - apply Hk.
  - intros [= ->]. now apply Hm.
Qed.

Lemma no_ValueError_ask_field (old : pyval) : no_ValueError (ask_field old).
Proof.
  apply no_ValueError_bind; [apply no_ValueError_input|]. intros u.
  destruct (String.eqb _ _); [apply no_ValueError_ret|].
  apply no_ValueError_bind; [apply no_ValueError_input|]. intros v.
  apply no_ValueError_ret.
Qed.

Lemma no_ValueError_choice_1 : no_ValueError (choice_1 env).
Proof.
  repeat (apply no_ValueError_bind; [apply no_ValueError_input|]; intros ?).
  apply no_ValueError_bind; [apply no_ValueError_writing|]. intros [i|];
    [|apply no_ValueError_print].
  apply no_ValueError_bind; [apply no_ValueError_send_gmail|]. intros sent.
  apply no_ValueError_bind; [|intros _; apply no_ValueError_print].
  destruct sent; apply no_ValueError_print.
Qed.

Lemma quiet_then {A} (m : cli A) : quiet m -> quiet_on_ValueError m.
Proof. intros H w _. apply H. Qed.

Lemma no_ValueError_then {A} (m : cli A) :
  no_ValueError m -> quiet_on_ValueError m.
Proof. intros H w Hw. now apply H in Hw. Qed.

Lemma quiet_on_ValueError_bind {A B} (m : cli A) (k : A -> cli B) :
  quiet m -> (forall a, quiet_on_ValueError (k a)) ->
  quiet_on_ValueError (bind m k).
Proof.
  intros Hm Hk w. specialize (Hm w). run_bind m w.
  - intros H. rewrite (Hk _ _ H). exact Hm.
  - intros _. exact Hm.
Qed.

Lemma quiet_on_ValueError_last {A B} (m : cli A) (k : A -> cli B) :
  quiet_on_ValueError m -> (forall a, quiet (k a)) ->
  (forall a, no_ValueError (k a)) ->
  quiet_on_ValueError (bind m k).
Proof.
  intros Hm Hq Hk w. specialize (Hm w). run_bind m w.
  - intros H. now apply Hk in H.
  - intros [= ->]. now apply Hm.
Qed.

Lemma quiet_on_ValueError_choice_4 : quiet_on_ValueError (choice_4 env).
Proof.
  apply quiet_on_ValueError_bind; [apply quiet_int_input|]. intros i.
  apply quiet_on_ValueError_bind; [apply quiet_reading|]. intros [old|];
    [|apply quiet_then, quiet_print].
  apply quiet_on_ValueError_bind; [apply quiet_print|]. intros _.
  repeat (apply quiet_on_ValueError_bind; [apply quiet_ask_field|];
          intros ?).
  apply no_ValueError_then.
  apply no_ValueError_bind; [apply no_ValueError_writing|]. intros k.
  destruct (k =? 0); apply no_ValueError_print.
Qed.

Lemma quiet_on_ValueError_choice_5 : quiet_on_ValueError (choice_5 env).
Proof.
  apply quiet_on_ValueError_bind; [apply quiet_int_input|]. intros i.
  apply quiet_on_ValueError_bind; [apply quiet_reading|]. intros [old|];
    [|apply quiet_then, quiet_print].
  apply quiet_on_ValueError_bind; [apply quiet_print|]. intros _.
  apply quiet_on_ValueError_bind; [apply quiet_input|]. intros answer.
  apply no_ValueError_then.
  destruct (String.eqb _ _); [|apply no_ValueError_ret].
  apply no_ValueError_bind; [apply no_ValueError_writing|]. intros k.
  destruct (k =? 0); apply no_ValueError_print.
Qed.

Lemma quiet_on_ValueError_choice (choice : Z) :
  quiet_on_ValueError
    (if choice =? 1 then choice_1 env
     else if choice =? 2 then choice_2 env
     else if choice =? 3 then choice_3 env
     else if choice =? 4 then choice_4 env
     else if choice =? 5 then choice_5 env
     else if choice =? 6 then choice_6 env
     else if choice =? 7 then choice_7 env
     else ret tt).
Proof.
  destruct (choice =? 1); [apply no_ValueError_then, no_ValueError_choice_1|].
  destruct (choice =? 2); [apply quiet_then, quiet_choice_2|].
  destruct (choice =? 3); [apply quiet_then, quiet_choice_3|].
  destruct (choice =? 4); [apply quiet_on_ValueError_choice_4|].
  destruct (choice =? 5); [apply quiet_on_ValueError_choice_5|].
  destruct (choice =? 6); [apply quiet_then, quiet_choice_6|].
  destruct (choice =? 7); [apply quiet_then, quiet_choice_7|].
  apply quiet_then, quiet_ret.
Qed.

Lemma quiet_on_ValueError_body :
  quiet_on_ValueError
    (bind int_input (fun choice =>
     bind (print (Line (crud_routes.str_of_int choice))) (fun _ =>
     bind (if choice =? 1 then choice_1 env
           else if choice =? 2 then choice_2 env
           else if choice =? 3 then choice_3 env
           else if choice =? 4 then choice_4 env
           else if choice =? 5 then choice_5 env
           else if choice =? 6 then choice_6 env
           else if choice =? 7 then choice_7 env
           else ret tt) (fun _ =>
     ret (Some choice))))).
Proof.
  apply quiet_on_ValueError_bind; [apply quiet_int_input|]. intros choice.
  apply quiet_on_ValueError_bind; [apply quiet_print|]. intros _.
  apply quiet_on_ValueError_last.
  - apply quiet_on_ValueError_choice.
  - intros _. apply quiet_ret.
  - intros _. apply no_ValueError_ret.
Qed.

(** X24. When [menu] returns [None] it has not written the table, and the
    last line it printed is the invalid-input line.  This is what happens on
    a choice that is not an integer, and as well on a patient id that is not
    one (choices 3, 4 and 5). *)
Theorem menu_returns_None (w : world) :
  fst (menu env w) = inl None ->
  table (snd (menu env w)) = table w
  /\ exists before,
      stdout (snd (menu env w))
      = before
        ++ [Line "Invalid input. Please enter a number between 1 and 8."].
Proof.
  pose proof (quiet_on_ValueError_body w) as Hq.
  unfold menu, except_ValueError.
  destruct (bind int_input _ w) as [[r|e] w1] eqn:E; cbn [fst snd] in *.
  - intros [= ->]. exfalso.
    apply bind_inl in E. destruct E as (c & w2 & _ & E).
    apply bind_inl in E. destruct E as (u & w3 & _ & E).
    apply bind_inl in E. destruct E as (v & w4 & _ & E).
    discriminate E.
  - destruct e as [|[| | | |]]; try discriminate.
    intros _. cbn. split; [now apply Hq|]. eauto.
Qed.

(** ** How the client may end *)

Lemma fails_within_ret {A} (P : error -> Prop) (a : A) :
  fails_within P (ret a).
Proof. intros w e. discriminate. Qed.

Lemma fails_within_raise {A} (P : error -> Prop) (e : error) :
  P e -> fails_within P (@raise A e).
Proof. intros He w e' [= <-]. exact He. Qed.

Lemma fails_within_print (P : error -> Prop) (p : printed) :
  fails_within P (print p).
Proof. intros w e. discriminate. Qed.

Lemma fails_within_reading {A} (P : error -> Prop) (f : fault -> Store -> A) :
  fails_within P (reading env f).
Proof. intros w e. discriminate. Qed.

Lemma fails_within_writing {A} (P : error -> Prop)
  (f : fault -> Store -> A * Store) :
  fails_within P (writing env f).
Proof. intros w e. unfold writing. destruct (f _ _). discriminate. Qed.

Lemma fails_within_send_gmail (P : error -> Prop) :
  fails_within P (send_gmail env).
Proof. intros w e. discriminate. Qed.

Lemma fails_within_input (P : error -> Prop) :
  P EOFError -> fails_within P input.
Proof.
  intros HP w e. unfold input. destruct (stdin w); [|discriminate].
  intros [= <-]. exact HP.
Qed.

Lemma fails_within_bind {A B} (P : error -> Prop) (m : cli A) (k : A -> cli B) :
  fails_within P m -> (forall a, fails_within P (k a)) ->
  fails_within P (bind m k).
Proof.
  intros Hm Hk w e. specialize (Hm w). run_bind m w.
  - apply Hk.
  - intros [= ->]. now apply Hm.
Qed.

Lemma fails_within_int_input (P : error -> Prop) :
  P EOFError -> P (Raised ValueError) -> fails_within P int_input.
Proof.
  intros H1 H2. apply fails_within_bind; [now apply fails_within_input|].
  intros line. cbn [int].
  destruct (long_from_string _);
    [apply fails_within_ret|now apply fails_within_raise].
Qed.

Lemma fails_within_print_patients (P : error -> Prop) (ps : list Patient) :
  fails_within P (print_patients ps).
Proof.
  induction ps as [|p ps IH]; [apply fails_within_ret|].
  apply fails_within_bind; [apply fails_within_print|]. intros _. exact IH.
Qed.

Lemma fails_within_ask_field (P : error -> Prop) (old : pyval) :
  P EOFError -> fails_within P (ask_field old).
Proof.
  intros HP. apply fails_within_bind; [now apply fails_within_input|].
  intros u. destruct (String.eqb _ _); [apply fails_within_ret|].
  apply fails_within_bind; [now apply fails_within_input|]. intros v.
  apply fails_within_ret.
Qed.

Lemma calculate_average_age_raises (io : fault) (st : Store) (e : exn) :
  calculate_average_age io 5 st = Raises e -> e = OverflowError.
Proof.
  rewrite calculate_average_age_spec by lia. unfold average, int_true_divide.
  destruct (count_of_ages _ =? 0); [discriminate|].
  destruct (SFdiv _ _ _ _); cbn [python.bind]; congruence.
Qed.

Ltac fails_step :=
  first
    [ apply fails_within_ret
    | apply fails_within_print
    | apply fails_within_reading
    | apply fails_within_writing
    | apply fails_within_send_gmail
    | apply fails_within_print_patients
    | apply fails_within_input; unfold eof_value_or_overflow; tauto
    | apply fails_within_int_input; unfold eof_value_or_overflow; tauto
    | apply fails_within_ask_field; unfold eof_value_or_overflow; tauto
    | apply fails_within_bind; [|intros ?]
    | match goal with
      | |- fails_within _ (match ?x with _ => _ end) => destruct x
      end ].

Lemma fails_within_choice (choice : Z) :
  fails_within eof_value_or_overflow
    (if choice =? 1 then choice_1 env
     else if choice =? 2 then choice_2 env
     else if choice =? 3 then choice_3 env
     else if choice =? 4 then choice_4 env
     else if choice =? 5 then choice_5 env
     else if choice =? 6 then choice_6 env
     else if choice =? 7 then choice_7 env
     else ret tt).
Proof.
  destruct (choice =? 1); [unfold choice_1; repeat fails_step|].
  destruct (choice =? 2); [unfold choice_2; repeat fails_step|].
  destruct (choice =? 3); [unfold choice_3; repeat fails_step|].
  destruct (choice =? 4); [unfold choice_4; repeat fails_step|].
  destruct (choice =? 5); [unfold choice_5; repeat fails_step|].
  destruct (choice =? 6); [unfold choice_6; repeat fails_step|].
  destruct (choice =? 7); [|fails_step].
  unfold choice_7. intros w e. unfold bind, reading. cbn [fst snd].
  destruct (calculate_average_age _ 5 _) as [[x|]|e0] eqn:E;
    try discriminate.
  intros [= <-]. apply calculate_average_age_raises in E. subst e0.
  unfold eof_value_or_overflow. tauto.
Qed.

Lemma fails_within_menu : fails_within eof_or_overflow (menu env).
Proof.
  intros w e. unfold menu, except_ValueError.
  set (body := bind int_input _).
  assert (Hbody : fails_within eof_value_or_overflow body).
  { unfold body.
    apply fails_within_bind;
      [apply fails_within_int_input; unfold eof_value_or_overflow; tauto|].
    intros choice.
    apply fails_within_bind; [apply fails_within_print|]. intros _.
    apply fails_within_bind; [apply fails_within_choice|]. intros _.
    apply fails_within_ret. }
  specialize (Hbody w). destruct (body w) as [[r|e0] w1]; cbn [fst] in *.
  - discriminate.
  - destruct (Hbody e0 eq_refl) as [ -> | [ -> | -> ] ].
    + intros [= <-]. now left.
    + discriminate.
    + intros [= <-]. now right.
Qed.

Lemma fails_within_menus_loop (fuel : nat) :
  fails_within eof_or_overflow (menus_loop env fuel).
Proof.
  induction fuel as [|fuel IH]; cbn [menus_loop].
  - apply fails_within_raise. now left.
  - apply fails_within_bind; [apply fails_within_menu|].
    intros choice.
    repeat match goal with
           | |- fails_within _ (match ?x with _ => _ end) => destruct x
           end; try exact IH.
    apply fails_within_ret.
Qed.

(** ** Every call of [menu] reads a line *)

Lemma reads_on_ret {A} (a : A) : reads_on (ret a).
Proof. intros w. cbn. lia. Qed.

Lemma reads_on_raise {A} (e : error) : reads_on (@raise A e).
Proof. intros w. cbn. lia. Qed.

Lemma reads_on_print (p : printed) : reads_on (print p).
Proof. intros w. cbn. lia. Qed.

Lemma reads_on_reading {A} (f : fault -> Store -> A) : reads_on (reading env f).
Proof. intros w. cbn. lia. Qed.

Lemma reads_on_writing {A} (f : fault -> Store -> A * Store) :
  reads_on (writing env f).
Proof. intros w. unfold writing. destruct (f _ _). cbn. lia. Qed.

Lemma reads_on_send_gmail : reads_on (send_gmail env).
Proof. intros w. cbn. lia. Qed.

Lemma reads_on_input : reads_on input.
Proof.
  intros w. unfold input.
  destruct (stdin w) eqn:E; cbn; rewrite ?E; cbn; lia.
Qed.

Lemma reads_on_bind {A B} (m : cli A) (k : A -> cli B) :
  reads_on m -> (forall a, reads_on (k a)) -> reads_on (bind m k).
Proof.
  intros Hm Hk w. specialize (Hm w). run_bind m w.
  - specialize (Hk a w1). lia.
  - exact Hm.
Qed.

Lemma reads_on_print_patients (ps : list Patient) :
  reads_on (print_patients ps).
Proof.
  induction ps as [|p ps IH]; [apply reads_on_ret|].
  apply reads_on_bind; [apply reads_on_print|]. intros _. exact IH.
Qed.

Ltac reads_step :=
  first
    [ apply reads_on_ret
    | apply reads_on_raise
    | apply reads_on_print
    | apply reads_on_reading
    | apply reads_on_writing
    | apply reads_on_send_gmail
    | apply reads_on_print_patients
    | apply reads_on_input
    | apply reads_on_bind; [|intros ?]
    | match goal with
      | |- reads_on (match ?x with _ => _ end) => destruct x
      end ].

Lemma reads_on_choice (choice : Z) :
  reads_on
    (if choice =? 1 then choice_1 env
     else if choice =? 2 then choice_2 env
     else if choice =? 3 then choice_3 env
     else if choice =? 4 then choice_4 env
     else if choice =? 5 then choice_5 env
     else if choice =? 6 then choice_6 env
     else if choice =? 7 then choice_7 env
     else ret tt).
Proof.
  unfold choice_1, choice_2, choice_3, choice_4, choice_5, choice_6,
    choice_7, ask_field, int_input.
  repeat reads_step.
Qed.

Lemma reads_a_line_input : reads_a_line input.
Proof.
  intros w. unfold input. destruct (stdin w) eqn:E; cbn; [now right|].
  left. lia.
Qed.

Lemma reads_a_line_bind {A B} (m : cli A) (k : A -> cli B) :
  reads_a_line m -> (forall a, reads_on (k a)) -> reads_a_line (bind m k).
Proof.
  intros Hm Hk w. specialize (Hm w). run_bind m w.
  - destruct Hm as [Hm|Hm]; [|discriminate].
    left. specialize (Hk a w1). lia.
  - destruct Hm as [Hm|Hm]; [now left|right]. now injection Hm as ->.
Qed.

Lemma reads_a_line_except {A} (body handler : cli A) :
  reads_a_line body -> reads_on handler ->
  reads_a_line (except_ValueError body handler).
Proof.
  intros Hb Hh w. specialize (Hb w). unfold except_ValueError.
  destruct (body w) as [[a|[|e]] w1]; cbn [fst snd] in *; try exact Hb.
  destruct e; try exact Hb.
  destruct Hb as [Hb|Hb]; [|discriminate].
  left. specialize (Hh w1). lia.
Qed.

Lemma reads_a_line_menu : reads_a_line (menu env).
Proof.
  unfold menu. apply reads_a_line_except.
  - apply reads_a_line_bind.
    + unfold int_input. apply reads_a_line_bind; [apply reads_a_line_input|].
      intros line. destruct (int _); [apply reads_on_ret|apply reads_on_raise].
    + intros choice. apply reads_on_bind; [apply reads_on_print|]. intros _.
      apply reads_on_bind; [apply reads_on_choice|]. intros _.
      apply reads_on_ret.
  - apply reads_on_bind; [apply reads_on_print|]. intros _. apply reads_on_ret.
Qed.

(** The loop does not depend on the fuel, once there is more of it than
    lines left to read. *)
Lemma menus_loop_fuel (fuel1 fuel2 : nat) (w : world) :
  (List.length (stdin w) < fuel1)%nat ->
  (List.length (stdin w) < fuel2)%nat ->
  menus_loop env fuel1 w = menus_loop env fuel2 w.
Proof.
  revert fuel2 w. induction fuel1 as [|fuel1 IH]; intros fuel2 w H1 H2;
    [lia|].
  destruct fuel2 as [|fuel2]; [lia|]. cbn [menus_loop]. unfold bind.
  destruct (reads_a_line_menu w) as [Hlt|Heof];
    destruct (menu env w) as [[choice|e] w1]; cbn [fst snd] in *;
    try reflexivity; try discriminate.
  assert (Hrec : menus_loop env fuel1 w1 = menus_loop env fuel2 w1)
    by (apply IH; lia).
  destruct choice as [[|p|p]|]; try exact Hrec.
  do 3 (destruct p as [p|p|]; try exact Hrec).
  destruct p; try exact Hrec. reflexivity.
Qed.

(** X27. [menus] ends in one of three ways: normally, and then the last
    line printed is the farewell; with [EOFError], when the input runs out
    before an 8 is entered; or with [OverflowError], from the average of
    choice 7.  No other exception leaves it. *)
Theorem menus_ends (w : world) :
  match fst (menus env w) with
  | inl _ =>
      exists before,
        stdout (snd (menus env w))
        = before ++ [Line "Thank you for using the app"]
  | inr e => e = EOFError \/ e = Raised OverflowError
  end.
Proof.
  unfold menus.
  destruct (bind _ _ w) as [[[]|e] w'] eqn:E; cbn [fst snd].
  - apply bind_inl in E. destruct E as (u & w1 & _ & E).
    apply bind_inl in E. destruct E as (v & w2 & _ & E).
    injection E as <-. cbn. eauto.
  - assert (Hfail : fails_within eof_or_overflow
                      (bind (print (Line
                         "***************Patient Management App***************"))
                         (fun _ =>
                          bind (menus_loop env (S (List.length (stdin w))))
                               (fun _ =>
                                print (Line "Thank you for using the app"))))).
    { apply fails_within_bind; [apply fails_within_print|]. intros _.
      apply fails_within_bind; [apply fails_within_menus_loop|]. intros _.
      apply fails_within_print. }
    apply (Hfail w e). now rewrite E.
Qed.

(** ** The choices that write the table *)

(** [menu] on a first line that is an integer: the branch of that choice
    runs after the echo, and its [ValueError] is the only thing handled. *)
Lemma menu_choice (w : world) (c : string) (rest : list string) (n : Z) :
  stdin w = c :: rest -> int (PyStr c) = Returns n ->
  let w1 :=
    mkWorld rest (stdout w ++ [Line (crud_routes.str_of_int n)])
            (table w) (tick w) in
  menu env w
  = match (if n =? 1 then choice_1 env
           else if n =? 2 then choice_2 env
           else if n =? 3 then choice_3 env
           else if n =? 4 then choice_4 env
           else if n =? 5 then choice_5 env
           else if n =? 6 then choice_6 env
           else if n =? 7 then choice_7 env
           else ret tt) w1 with
    | (inl _, w2) => (inl (Some n), w2)
    | (inr (Raised ValueError), w2) =>
        (inl None,
         mkWorld (stdin w2)
           (stdout w2
            ++ [Line "Invalid input. Please enter a number between 1 and 8."])
           (table w2) (tick w2))
    | (inr e, w2) => (inr e, w2)
    end.
Proof.
  intros Hin Hc w1. subst w1.
  unfold menu, except_ValueError, bind at 1, int_input, bind at 1, input.
  rewrite Hin, Hc. unfold ret at 1. unfold bind at 1, print at 1.
  cbn [stdin stdout table tick]. unfold bind at 1.
  match goal with
  | |- (let (_, _) := (let (_, _) := ?b in _) in _) = _ =>
      destruct b as [[[]|[|[| | | |]]] w2]
  end; reflexivity.
Qed.

Lemma menu_choice_table (w : world) (c : string) (rest : list string)
  (n : Z) :
  stdin w = c :: rest -> int (PyStr c) = Returns n ->
  table (snd (menu env w))
  = table (snd ((if n =? 1 then choice_1 env
                 else if n =? 2 then choice_2 env
                 else if n =? 3 then choice_3 env
                 else if n =? 4 then choice_4 env
                 else if n =? 5 then choice_5 env
                 else if n =? 6 then choice_6 env
                 else if n =? 7 then choice_7 env
                 else ret tt)
                  (mkWorld rest
                     (stdout w ++ [Line (crud_routes.str_of_int n)])
                     (table w) (tick w)))).
Proof.
  intros Hin Hc. rewrite (menu_choice w c rest n Hin Hc). cbv zeta.
  match goal with
  | |- table (snd (let (_, _) := ?b in _)) = _ =>
      destruct b as [[[]|[|[| | | |]]] w2]
  end; reflexivity.
Qed.

Lemma choice_5_table (w1 : world) (pid answer : string) (rest : list string)
  (i : Z) :
  stdin w1 = pid :: answer :: rest -> int (PyStr pid) = Returns i ->
  table (snd (choice_5 env w1)) = table w1
  \/ (lower answer = "y"%string
      /\ table (snd (choice_5 env w1))
         = snd (delete_patient (io env (S (tick w1))) i (table w1))).
Proof.
  intros Hin Hpid.
  destruct (choice_5 env w1) as [r w2] eqn:E. cbn [snd].
  unfold choice_5, bind at 1, int_input, bind at 1, input in E.
  rewrite Hin, Hpid in E. unfold ret at 1 in E.
  unfold bind at 1, reading at 1 in E. cbn [stdin stdout table tick] in E.
  destruct (read_patient_by_id (io env (tick w1)) i (table w1)) as [old|].
  - unfold bind at 1, print at 1 in E. cbn [stdin stdout table tick] in E.
    unfold bind at 1, input in E. cbn [stdin stdout table tick] in E.
    destruct (String.eqb_spec (lower answer) "y") as [Hy|Hn].
    + right. split; [exact Hy|].
      unfold bind at 1, writing in E. cbn [stdin stdout table tick] in E.
      destruct (delete_patient _ i (table w1)) as [k st1].
      destruct (k =? 0); injection E as _ <-; reflexivity.
    + left. injection E as _ <-. reflexivity.
  - left. injection E as _ <-. reflexivity.
Qed.

(** X25. Choice 5 asks before it deletes: unless the answer is 'y' in
    either case, the table is left as it was; and whatever the answer, only
    rows of the id that was entered can go. *)
Theorem delete_asks_first
  (w : world) (c pid answer : string) (rest : list string) (i : Z) :
  stdin w = c :: pid :: answer :: rest ->
  int (PyStr c) = Returns 5 -> int (PyStr pid) = Returns i ->
  let st' := table (snd (menu env w)) in
  (lower answer <> "y"%string -> st' = table w)
  /\ (forall j, j <> i ->
        read_patient_by_id None j st' = read_patient_by_id None j (table w))
  /\ sequence st' = sequence (table w).
Proof.
  intros Hin Hc Hpid st'. subst st'.
  rewrite (menu_choice_table w c _ 5 Hin Hc). cbn [Z.eqb Pos.eqb].
  set (w1 := mkWorld _ _ _ _).
  destruct (choice_5_table w1 pid answer rest i eq_refl Hpid)
    as [->|[Hy ->]]; cbn [table tick w1].
  - auto.
  - split; [intros Hne; contradiction|].
    unfold delete_patient.
    destruct (io env (S (tick w))); cbn [connect python.bind delete snd];
      [auto|].
    split; [|reflexivity]. intros j Hj.
    unfold read_patient_by_id, select_by_id. cbn [connect python.bind rows].
    now rewrite find_after_delete.
Qed.

Lemma ask_field_keeps (old : pyval) (w0 : world) (f : string)
  (rest0 : list string) :
  stdin w0 = f :: rest0 -> lower (strip f) = "f"%string ->
  ask_field old w0
  = (inl old, mkWorld rest0 (stdout w0) (table w0) (tick w0)).
Proof.
  intros Hin Hf. unfold ask_field, bind, input. rewrite Hin, Hf. reflexivity.
Qed.

(** X26. Choice 4 with 'f' (in either case, with spaces around it or not)
    as the answer to each of the three questions, on an id that exactly one
    row has and with the storage layer working: the record that was read is
    written back, the table is left as it was, all five lines are read, and
    the client reports a successful update. *)
Theorem update_keeping_every_field
  (w : world) (c pid f1 f2 f3 : string) (rest : list string) (i : Z) :
  stdin w = c :: pid :: f1 :: f2 :: f3 :: rest ->
  int (PyStr c) = Returns 4 -> int (PyStr pid) = Returns i ->
  lower (strip f1) = "f"%string ->
  lower (strip f2) = "f"%string ->
  lower (strip f3) = "f"%string ->
  io env (tick w) = None -> io env (S (tick w)) = None ->
  NoDup (ids (table w)) -> In i (ids (table w)) ->
  exists old_patient,
    read_patient_by_id None i (table w) = Some old_patient
    /\ menu env w
       = (inl (Some 4),
          mkWorld rest
            (stdout w
             ++ [Line "4";
                 Line ("Current: " ++ patient_line old_patient);
                 Line "Patient updated successfully."])
            (table w) (S (S (tick w)))).
Proof.
  intros Hin Hc Hpid H1 H2 H3 Hio1 Hio2 Hnd Hi.
  destruct (find_present i (rows (table w)) Hi) as (r & Hfind & Hid & Hr).
  assert (Hread : read_patient_by_id None i (table w)
                  = Some (Patient_of_row r)).
  { unfold read_patient_by_id, select_by_id. cbn [connect python.bind].
    now rewrite Hfind. }
  exists (Patient_of_row r). split; [exact Hread|].
  rewrite (menu_choice w c _ 4 Hin Hc). cbn [Z.eqb Pos.eqb].
  unfold choice_4, bind at 1, int_input, bind at 1, input.
  cbn [stdin]. rewrite Hpid. unfold ret at 1. unfold bind at 1, reading at 1.
  cbn [stdin stdout table tick]. rewrite Hio1, Hread.
  unfold bind at 1, print at 1. cbn [stdin stdout table tick].
  unfold bind at 1.
  match goal with
  | |- context [ask_field ?o ?W] =>
      rewrite (ask_field_keeps o W f1 _ eq_refl H1)
  end.
  cbn [stdin stdout table tick]. unfold bind at 1.
  match goal with
  | |- context [ask_field ?o ?W] =>
      rewrite (ask_field_keeps o W f2 _ eq_refl H2)
  end.
  cbn [stdin stdout table tick]. unfold bind at 1.
  match goal with
  | |- context [ask_field ?o ?W] =>
      rewrite (ask_field_keeps o W f3 _ eq_refl H3)
  end.
  cbn [stdin stdout table tick].
  unfold bind at 1, writing. cbn [stdin stdout table tick]. rewrite Hio2.
  replace (mkPatient (id (Patient_of_row r)) (name (Patient_of_row r))
             (age (Patient_of_row r)) (disease (Patient_of_row r)))
    with (Patient_of_row r) by reflexivity.
  rewrite (update_stored_values r (table w) Hnd Hr).
  cbn [Z.eqb]. unfold print. cbn [stdin stdout table tick].
  rewrite <- !app_assoc. reflexivity.
Qed.

End Client.

Section ClientWitnesses.
Import client_cli.

Lemma menu_returns_None_witness :
  fst (menu (mkEnvironment (fun _ => None) (fun _ => Returns tt) FileNotFound)
            (mkWorld ["3"; "two"]%string [] test_store 0)) = inl None
  /\ table (snd (menu (mkEnvironment (fun _ => None) (fun _ => Returns tt)
                                     FileNotFound)
                      (mkWorld ["3"; "two"]%string [] test_store 0)))
     = test_store.
Proof.
  assert (H : fst (menu (mkEnvironment (fun _ => None) (fun _ => Returns tt)
                                       FileNotFound)
                        (mkWorld ["3"; "two"]%string [] test_store 0))
              = inl None) by reflexivity.
  split; [exact H|].
  exact (proj1 (menu_returns_None _ _ H)).
Defined.

Lemma delete_asks_first_witness :
  int (PyStr "5") = Returns 5 /\ int (PyStr "2") = Returns 2
  /\ lower "no" <> "y"%string
  /\ table (snd (menu (mkEnvironment (fun _ => None) (fun _ => Returns tt)
                                     FileNotFound)
                      (mkWorld ["5"; "2"; "no"]%string [] test_store 0)))
     = test_store.
Proof.
  assert (Hc : int (PyStr "5") = Returns 5) by reflexivity.
  assert (Hp : int (PyStr "2") = Returns 2) by reflexivity.
  assert (Hn : lower "no" <> "y"%string) by discriminate.
  split; [exact Hc|]. split; [exact Hp|]. split; [exact Hn|].
  exact (proj1 (delete_asks_first
                  (mkEnvironment (fun _ => None) (fun _ => Returns tt)
                                 FileNotFound)
                  (mkWorld ["5"; "2"; "no"]%string [] test_store 0)
                  "5" "2" "no" [] 2 eq_refl Hc Hp) Hn).
Defined.

Lemma update_keeping_every_field_witness :
  lower (strip "F") = "f"%string /\ lower (strip " f ") = "f"%string
  /\ NoDup (ids test_store) /\ In 2 (ids test_store)
  /\ exists old_patient,
      read_patient_by_id None 2 test_store = Some old_patient
      /\ menu (mkEnvironment (fun _ => None) (fun _ => Returns tt)
                             FileNotFound)
              (mkWorld ["4"; "2"; "F"; " f "; "f"; "8"]%string [] test_store 0)
         = (inl (Some 4),
            mkWorld ["8"]%string
              ([] ++ [Line "4";
                      Line ("Current: " ++ patient_line old_patient);
                      Line "Patient updated successfully."])
              test_store 2).
Proof.
  assert (H1 : lower (strip "F") = "f"%string) by reflexivity.
  assert (H2 : lower (strip " f ") = "f"%string) by reflexivity.
  assert (Hnd : NoDup (ids test_store)).
  { apply wf_NoDup. apply (create_all_appends _ empty wf_empty). }
  assert (Hin : In 2 (ids test_store)) by (vm_compute; tauto).
  split; [exact H1|]. split; [exact H2|]. split; [exact Hnd|].
  split; [exact Hin|].
  exact (update_keeping_every_field
           (mkEnvironment (fun _ => None) (fun _ => Returns tt) FileNotFound)
           (mkWorld ["4"; "2"; "F"; " f "; "f"; "8"]%string [] test_store 0)
           "4" "2" "F" " f " "f" ["8"]%string 2
           eq_refl eq_refl eq_refl H1 H2 eq_refl eq_refl eq_refl Hnd Hin).
Defined.

End ClientWitnesses.
